(** * The PDF object tag of the Label Studio editor

    A shallow embedding of [web/libs/editor/src/tags/object/pdf.js]: the
    [PDFRegion] model with its serializer and highlight colouring, and the
    [PDFModel] actions that keep the tag's [regions] array in step with the
    annotation store ([needsUpdate], [updateRegions], [addRegion],
    [deleteRegion], [destroyRegion]).

    JavaScript values are an inductive type, objects are property lists in
    insertion order, the mobx-state-tree models are records, and every action
    is a function from the state it reads to the state it leaves.  What
    [addRegion] calls and the file does not define is a parameter, the class
    [Collaborators] ([getAvailableStates], [createResult], the store's
    [addRegion], [guidGenerator]); [isDefined], which the serializer names
    and nothing binds, throws where it is evaluated. *)

From Stdlib Require Import ZArith DecimalString.
From stdpp Require Import base option list strings.

Local Open Scope string_scope.
Local Open Scope list_scope.

#[local] Set Warnings "-register-all".

(** ** JavaScript values *)

Inductive jsval : Type :=
  | JUndefined
  | JNull
  | JBool (b : bool)
  | JNum (n : Z)
  | JStr (s : string)
  | JArr (items : list jsval)
  | JObj (props : list (string * jsval)).

(** An object: its own enumerable properties, oldest first. *)
Definition obj : Type := list (string * jsval).

(** [if (v)]: undefined, null, false, 0 and the empty string are falsy. *)
Definition truthy (v : jsval) : bool :=
  match v with
  | JUndefined | JNull => false
  | JBool b => b
  | JNum n => negb (n =? 0)%Z
  | JStr s => negb (String.eqb s "")
  | JArr _ | JObj _ => true
  end.

(** [o.k]: [None] when [o] has no own property [k]. *)
Fixpoint get_prop (k : string) (o : obj) : option jsval :=
  match o with
  | [] => None
  | (k', v) :: o' => if String.eqb k' k then Some v else get_prop k o'
  end.

(** [o.k = v]: an existing property keeps its place, a new one goes last. *)
Fixpoint set_prop (k : string) (v : jsval) (o : obj) : obj :=
  match o with
  | [] => [(k, v)]
  | (k', v') :: o' =>
      if String.eqb k' k then (k', v) :: o' else (k', v') :: set_prop k v o'
  end.

(** [Object.keys(o)]. *)
Definition keys (o : obj) : list string := o.*1.

(** [{ ...o, ...src }]: the properties of [src] assigned in order. *)
Definition spread (src : obj) (o : obj) : obj :=
  foldl (λ acc kv, set_prop kv.1 kv.2 acc) o src.

(** The key of the index property [i]. *)
Definition index_key (i : nat) : string :=
  NilEmpty.string_of_uint (Nat.to_uint i).

(** The own properties a spread copies out of a value: those of an object,
    the elements of an array and the characters of a string (one to a byte)
    under their indices, none of undefined, null, a boolean or a number.
    They are listed in the order they are copied; that an object lists its
    index keys first is not modelled. *)
Definition own_props (v : jsval) : obj :=
  match v with
  | JObj props => props
  | JArr items => imap (λ i x, (index_key i, x)) items
  | JStr s =>
      imap (λ i c, (index_key i, JStr (String c EmptyString)))
        (String.list_ascii_of_string s)
  | _ => []
  end.

(** A [types.maybeNull(types.string)] field read as a JavaScript value. *)
Definition of_maybeNull (x : option string) : jsval :=
  match x with
  | Some s => JStr s
  | None => JNull
  end.

(** [a === b] with [a] a [maybeNull(string)] field and [b] any value. *)
Definition strict_eq (a : option string) (b : jsval) : bool :=
  match a, b with
  | None, JNull => true
  | Some s, JStr t => String.eqb s t
  | _, _ => false
  end.

(** ** The models *)

(** [PDFRegion] (lines 28-39).  [object] is a [types.reference(PDFModel)],
    held as the identifier of the tag it points to. *)
Record PDFRegion : Type := {
  _id : option string;
  type : string;
  object : string;
  position : jsval;
  text : option string;
  label : option string;
}.

(** [TagAttrs] composed with [Model] (lines 19-25 and 133-139).
    [savetextresult] is read by [serialize]; [TagAttrs] does not declare
    it, so it is whatever another mixin of the tag left there, undefined
    included. *)
Record PDFModel : Type := {
  name : string;
  value : option string;
  selectionenabled : bool;
  highlightcolor : option string;
  showlabels : option bool;
  savetextresult : jsval;
  _value : string;
  regions : list PDFRegion;
}.

Definition set_regions (rs : list PDFRegion) (self : PDFModel) : PDFModel :=
  {| name := name self; value := value self;
     selectionenabled := selectionenabled self;
     highlightcolor := highlightcolor self; showlabels := showlabels self;
     savetextresult := savetextresult self; _value := _value self;
     regions := rs |}.

(** What a failing property read or an unbound name throws. *)
Inductive exn : Type :=
  | TypeError (reading : string)
  | ReferenceError (unbound : string).

(** ** The serializer (lines 41-65) *)

(** [serialize()]: the owner is [self.object] resolved.  The file binds no
    [isDefined] (it is not among the imports of lines 1-17), so when
    [savetextresult] is "yes" the right operand of the [&&] on line 50
    throws a ReferenceError; otherwise the [&&] is false without it. *)
Definition serialize (owner : PDFModel) (self : PDFRegion) : exn + obj :=
  let value : obj :=
    [("position", position self); ("text", of_maybeNull (text self))] in
  if strict_eq (Some "yes") (savetextresult owner)
  then inl (ReferenceError "isDefined")
  else
    let value :=
      if truthy (of_maybeNull (label self))
      then set_prop "label" (of_maybeNull (label self)) value
      else value in
    let value :=
      if truthy (of_maybeNull (_id self))
      then set_prop "id" (of_maybeNull (_id self)) value
      else value in
    inr [("value", JObj value)].

(** [serialize().value]. *)
Definition serialized_value (owner : PDFModel) (self : PDFRegion)
  : exn + obj :=
  match serialize owner self with
  | inl err => inl err
  | inr res =>
      match get_prop "value" res with
      | Some v => inr (own_props v)
      | None => inr []
      end
  end.

(** ** What the tag reads from the annotation store *)

(** A [<Label>] child of a label control: its [value] and [background]. *)
Record Label : Type := {
  label_value : string;
  background : string;
}.

(** A label control: [isSelected], [valueType] and [selectedValues()]. *)
Record Control : Type := {
  isSelected : bool;
  valueType : string;
  selectedValues : list string;
  children : list Label;
}.

(** A Result of the store, as far as the file reads and writes it:
    [value.text] (absent is [None]), [selectedLabels] and [area]. *)
Record Result : Type := {
  value_text : option string;
  selectedLabels : list Label;
  area : option PDFRegion;
}.

Definition set_area (r : PDFRegion) (res : Result) : Result :=
  {| value_text := value_text res; selectedLabels := selectedLabels res;
     area := Some r |}.

(** [PDFRegionModel] (lines 258-264): the [PDFRegion] properties composed
    with what the region mixins add.  [labels] is [None] for a region whose
    [labels] is not an array. *)
Record PDFRegionModel : Type := {
  props : PDFRegion;
  id : string;
  results : list Result;
  labels : option (list string);
  hidden : bool;
  selected : bool;
}.

Inductive LogEntry : Type :=
  | ConsoleError (err : exn)
  | ConsoleWarn (msg : string).

(** The annotation of the tag: [self.regs], the regions of the store that
    belong to this tag, and [toNames.get(self.name)], its label controls. *)
Record Annotation : Type := {
  regs : list PDFRegionModel;
  toNames : option (list Control);
}.

(** What an action runs in: the tag, its annotation, the console and the
    number of ids [guidGenerator] has handed out. *)
Record State : Type := {
  self : PDFModel;
  annotation : Annotation;
  console : list LogEntry;
  guids : nat;
}.

(** ** [PDFRegion] actions *)

(** [updateText(text)] (lines 125-127). *)
Definition updateText (t : option string) (region : PDFRegionModel)
  : PDFRegionModel :=
  {| props := {| _id := _id (props region); type := type (props region);
                 object := object (props region);
                 position := position (props region);
                 text := t; label := label (props region) |};
     id := id region; results := results region; labels := labels region;
     hidden := hidden region; selected := selected region |}.

(** ** [PDFModel] views (lines 140-157) *)

Definition states (st : State) : option (list Control) :=
  toNames (annotation st).

(** [states && states.length > 0], as a condition. *)
Definition hasStates (st : State) : bool :=
  match states st with
  | Some l => bool_decide (0 < length l)
  | None => false
  end.

Definition activeStates (st : State) : option (list Control) :=
  match states st with
  | Some l => Some (filter (λ s, isSelected s) l)
  | None => None
  end.

(** ** [PDFModel] actions (lines 158-245) *)

(** [self.regions.push(r)]. *)
Definition push (r : PDFRegion) (m : PDFModel) : PDFModel :=
  set_regions (regions m ++ [r]) m.

(** [destroyRegion(id)] (lines 167-169). *)
Definition destroyRegion (i : jsval) (m : PDFModel) : PDFModel :=
  set_regions (filter (λ x, negb (strict_eq (_id x) i)) (regions m)) m.

(** [deleteRegion(id)] (lines 240-242). *)
Definition deleteRegion (i : jsval) (m : PDFModel) : PDFModel :=
  set_regions (filter (λ r, negb (strict_eq (_id r) i)) (regions m)) m.

(** [Model.beforeDestroy()] (lines 164-166). *)
Definition beforeDestroy (m : PDFModel) : PDFModel := set_regions [] m.

(** [PDFRegion.beforeDestroy()] (lines 128-130):
    [self.parent?.deleteRegion(self.id)]. *)
Definition region_beforeDestroy (region : PDFRegionModel)
    (parent : option PDFModel) : option PDFModel :=
  deleteRegion (JStr (id region)) <$> parent.

(** The body of the [try] in [updateRegions] (lines 173-183): the snapshot
    it pushes and the region as [updateText] left it, or what was thrown.
    The snapshot names no [text], which [maybeNull] fills with null, and its
    [selected] is no property of [PDFRegion]. *)
Definition deriveRegion (m : PDFModel) (region : PDFRegionModel)
  : exn + PDFRegion * PDFRegionModel :=
  match labels region with
  | None => inl (TypeError "0")
  | Some ls =>
      let newRegion :=
        {| _id := Some (id region); type := "pdfregion"; object := name m;
           position := position (props region); text := None;
           label := head ls |} in
      if truthy (of_maybeNull (text (props region)))
      then inr (newRegion, region)
      else
        match results region with
        | [] => inl (TypeError "value")
        | r0 :: _ => inr (newRegion, updateText (value_text r0) region)
        end
  end.

(** [self.regs.forEach(region => { try {...} catch (err) {...} })]: the
    regions visited, the tag and the console after the loop. *)
Fixpoint forEach_regs (rs : list PDFRegionModel) (m : PDFModel)
    (log : list LogEntry) : list PDFRegionModel * PDFModel * list LogEntry :=
  match rs with
  | [] => ([], m, log)
  | region :: rest =>
      match deriveRegion m region with
      | inr (newRegion, region') =>
          let '(rest', m', log') := forEach_regs rest (push newRegion m) log in
          (region' :: rest', m', log')
      | inl err =>
          let '(rest', m', log') :=
            forEach_regs rest m (log ++ [ConsoleError err]) in
          (region :: rest', m', log')
      end
  end.

(** [updateRegions()] (lines 170-188). *)
Definition updateRegions (st : State) : State :=
  let '(rs, m, log) :=
    forEach_regs (regs (annotation st)) (self st) (console st) in
  {| self := m;
     annotation := {| regs := rs; toNames := toNames (annotation st) |};
     console := log; guids := guids st |}.

(** [needsUpdate()] (lines 159-162). *)
Definition needsUpdate (st : State) : State :=
  updateRegions
    {| self := set_regions [] (self st); annotation := annotation st;
       console := console st; guids := guids st |}.

(** ** [addRegion] (lines 190-234) *)

(** What a call hands back: nothing ([return;]), null, or an object. *)
Inductive Maybe (A : Type) : Type :=
  | Undefined
  | Null
  | Obj (a : A).
Arguments Undefined {A}.
Arguments Null {A}.
Arguments Obj {A} a.

(** [if (x)] on such a value. *)
Definition is_obj {A : Type} (x : Maybe A) : bool :=
  match x with
  | Obj _ => true
  | _ => false
  end.

(** What the highlighter reports when a selection ends: the position and
    the content, whose [text] is absent for an area selection. *)
Record Content : Type := {
  content_text : option string;
  image : option string;
}.

Record HighlightData : Type := {
  hd_position : jsval;
  content : Content;
}.

(** A property that is a string or absent, as a JavaScript value. *)
Definition of_maybe (x : option string) : jsval :=
  match x with
  | Some s => JStr s
  | None => JUndefined
  end.

(** What [addRegion] calls and the file does not define: the tag's
    [getAvailableStates()], the store's [createResult] and [addRegion], and
    [guidGenerator()], the n-th id it hands out. *)
Class Collaborators : Type := {
  getAvailableStates : PDFModel → Annotation → list Control * Annotation;
  createResult :
    obj → string * list string → Control → PDFModel → Annotation →
    Maybe Result * Annotation;
  annotation_addRegion : PDFRegion → Annotation → Annotation;
  guidGenerator : nat → string;
}.

(** The [areaValue] literal (lines 199-208): [position]'s own properties are
    spread over the five that precede them. *)
Definition areaValue (m : PDFModel) (i : string) (highlightData : HighlightData)
  : obj :=
  set_prop "classification" (JBool false)
    (set_prop "text" (of_maybe (content_text (content highlightData)))
       (spread (own_props (hd_position highlightData))
          [("id", JStr i); ("object", JStr (name m));
           ("type", JStr "pdfregion"); ("origin", JStr "manual");
           ("position", hd_position highlightData)])).

(** The [newRegion] snapshot (lines 218-226) as a [PDFRegion]; [content] is
    no property of the model. *)
Definition newRegion (m : PDFModel) (i : string) (highlightData : HighlightData)
    (values : list string) : PDFRegion :=
  {| _id := Some i; type := "pdfregion"; object := name m;
     position := hd_position highlightData;
     text := content_text (content highlightData);
     label := head values |}.

Definition addRegion `{Collaborators} (highlightData : HighlightData)
    (st : State) : Maybe Result * State :=
  let '(available, ann1) := getAvailableStates (self st) (annotation st) in
  match available with
  | [] =>
      (Undefined,
       {| self := self st; annotation := ann1; console := console st;
          guids := guids st |})
  | control :: _ =>
      let values := selectedValues control in
      let lbls := (valueType control, values) in
      let i := guidGenerator (guids st) in
      let '(result, ann2) :=
        createResult (areaValue (self st) i highlightData) lbls control
          (self st) ann1 in
      match result with
      | Obj res =>
          let r := newRegion (self st) i highlightData values in
          (Obj (set_area r res),
           {| self := push r (self st);
              annotation := annotation_addRegion r ann2;
              console := console st; guids := S (guids st) |})
      | _ =>
          (result,
           {| self := self st; annotation := ann2; console := console st;
              guids := S (guids st) |})
      end
  end.

(** [onSelectionFinished] (lines 366-381): whether the selection was
    cleared, and the state. *)
Definition onSelectionFinished `{Collaborators} (pos : jsval) (c : Content)
    (st : State) : bool * State :=
  if negb (hasStates st)
  then
    (false,
     {| self := self st; annotation := annotation st;
        console := console st ++ [ConsoleWarn "No labels selected"];
        guids := guids st |})
  else
    let '(result, st') :=
      addRegion {| hd_position := pos; content := c |} st in
    (is_obj result, st').

(** ** Highlight colouring (lines 66-124) *)

(** A [.Highlight__part] node and the two styles the file sets. *)
Record Part : Type := {
  isHTMLElement : bool;
  style_background : string;
  style_display : string;
}.

(** [getBoundingClientRect()], in whole pixels. *)
Record Rect : Type := {
  top : Z;
  left : Z;
  bottom : Z;
  right : Z;
}.

(** An element carrying [data-highlight-id]. *)
Record HighlightElement : Type := {
  data_highlight_id : string;
  parts : list Part;
  rect : Rect;
  scrollIntoViewCalls : nat;
}.

(** The page: its highlight elements in document order and the viewport. *)
Record Page : Type := {
  elements : list HighlightElement;
  innerHeight : Z;
  innerWidth : Z;
  clientHeight : Z;
  clientWidth : Z;
}.

(** An id that stands for itself between the quotes of the selector
    [`[data-highlight-id="${id}"]`]: it holds no quote (34), no backslash
    (92), no NUL and no line break (10, 12, 13). *)
Definition selector_safe (i : string) : bool :=
  forallb
    (λ c, negb (existsb (Nat.eqb (Ascii.nat_of_ascii c)) [0; 10; 12; 13; 34; 92]))
    (String.list_ascii_of_string i).

(** [document.querySelector(`[data-highlight-id="${id}"]`)], for an id that
    is [selector_safe]: the first element whose attribute is the id.  (For
    another id the selector is malformed or names another value.) *)
Definition querySelector (i : string) (page : Page) : option HighlightElement :=
  head (filter (λ el, data_highlight_id el = i) (elements page)).

(** The element [querySelector] finds, replaced by [f] of it. *)
Fixpoint update_selected (i : string) (f : HighlightElement → HighlightElement)
    (els : list HighlightElement) : list HighlightElement :=
  match els with
  | [] => []
  | el :: rest =>
      if decide (data_highlight_id el = i) then f el :: rest
      else el :: update_selected i f rest
  end.

Definition set_elements (els : list HighlightElement) (page : Page) : Page :=
  {| elements := els; innerHeight := innerHeight page;
     innerWidth := innerWidth page; clientHeight := clientHeight page;
     clientWidth := clientWidth page |}.

(** The body of the [parts.forEach] of [changeHighlightColor]. *)
Definition paint (color : string) (hide : bool) (part : Part) : Part :=
  if isHTMLElement part
  then {| isHTMLElement := true; style_background := color;
          style_display := if hide then "none" else "unset" |}
  else part.

Definition set_parts (ps : list Part) (el : HighlightElement)
  : HighlightElement :=
  {| data_highlight_id := data_highlight_id el; parts := ps;
     rect := rect el; scrollIntoViewCalls := scrollIntoViewCalls el |}.

(** [changeHighlightColor(color)] (lines 74-87). *)
Definition changeHighlightColor (color : string) (region : PDFRegionModel)
    (page : Page) : Page :=
  set_elements
    (update_selected (id region)
       (λ el, set_parts (paint color (hidden region) <$> parts el) el)
       (elements page))
    page.

(** [self.results[0].selectedLabels[0].background]. *)
Definition first_background (region : PDFRegionModel) : exn + string :=
  match results region with
  | [] => inl (TypeError "selectedLabels")
  | r0 :: _ =>
      match selectedLabels r0 with
      | [] => inl (TypeError "background")
      | l0 :: _ => inr (background l0)
      end
  end.

(** [a || b] on numbers. *)
Definition or_else (a b : Z) : Z := if (a =? 0)%Z then b else a.

Definition isInViewport (r : Rect) (page : Page) : bool :=
  (0 <=? top r)%Z && (0 <=? left r)%Z
  && (bottom r <=? or_else (innerHeight page) (clientHeight page))%Z
  && (right r <=? or_else (innerWidth page) (clientWidth page))%Z.

Definition scrollIntoView (el : HighlightElement) : HighlightElement :=
  {| data_highlight_id := data_highlight_id el; parts := parts el;
     rect := rect el; scrollIntoViewCalls := S (scrollIntoViewCalls el) |}.

(** Lines 97-117 of [selectRegion]. *)
Definition scrollIfHidden (region : PDFRegionModel) (page : Page) : Page :=
  match querySelector (id region) page with
  | Some el =>
      if isInViewport (rect el) page then page
      else set_elements
             (update_selected (id region) scrollIntoView (elements page)) page
  | None => page
  end.

(** [selectRegion()] (lines 92-118). *)
Definition selectRegion (region : PDFRegionModel) (page : Page) : exn + Page :=
  match first_background region with
  | inl err => inl err
  | inr color =>
      inr (scrollIfHidden region (changeHighlightColor color region page))
  end.

(** [afterUnselectRegion()] (lines 120-124). *)
Definition afterUnselectRegion (region : PDFRegionModel) (page : Page)
  : exn + Page :=
  match first_background region with
  | inl err => inl err
  | inr bg => inr (changeHighlightColor (bg ++ "26")%string region page)
  end.



(** [updateAppearenceFromState()] (lines 88-90), run in the state of the
    region's parent: [self.parent.needsUpdate()]. *)
Definition updateAppearenceFromState (st : State) : State := needsUpdate st.

(** ** [HighlightComponent] (lines 266-293) *)

(** [a ?? b]. *)
Definition nullish {A : Type} (a : option A) (b : A) : A :=
  match a with
  | Some x => x
  | None => b
  end.

(** A string or undefined spliced into a string, as [+] and a template
    literal do. *)
Definition to_string (x : option string) : string :=
  match x with
  | Some s => s
  | None => "undefined"
  end.

(** [`${highlight._id}`]: null prints as "null". *)
Definition id_text (x : option string) : string :=
  match x with
  | Some s => s
  | None => "null"
  end.

(** [item.states()?.[0]?.children]. *)
Definition first_children (st : State) : option (list Label) :=
  match states st with
  | Some (control :: _) => Some (children control)
  | _ => None
  end.

(** [item.regs.find(x => x.id === highlight._id)]. *)
Definition find_region (st : State) (highlight : PDFRegion)
  : option PDFRegionModel :=
  head (filter (λ x, strict_eq (_id highlight) (JStr (id x)))
          (regs (annotation st))).

(** [states?.find(s => s.value === label)]. *)
Definition find_state (st : State) (highlight : PDFRegion) : option Label :=
  match first_children st with
  | Some ls =>
      head (filter (λ s, strict_eq (label highlight) (JStr (label_value s))) ls)
  | None => None
  end.

(** [region?.selected], as a condition. *)
Definition region_selected (region : option PDFRegionModel) : bool :=
  match region with
  | Some r => selected r
  | None => false
  end.

(** The [color] of lines 273-275.  [+] binds tighter than [??]: the second
    branch is [(state?.background + "26") ?? "#00000026"]. *)
Definition highlight_color (st : State) (highlight : PDFRegion) : string :=
  let state := find_state st highlight in
  if region_selected (find_region st highlight)
  then nullish (background <$> state) "#000000"
  else nullish (Some (to_string (background <$> state) ++ "26")%string)
         "#00000026".

(** The body of the [parts.forEach] of the layout effect, for a region that
    was found: the background is set on the HTML parts of a region that is
    not hidden.  (The [onclick] it installs is no style and is left out.) *)
Definition tint (color : string) (region : PDFRegionModel) (part : Part)
  : Part :=
  if isHTMLElement part && negb (hidden region)
  then {| isHTMLElement := true; style_background := color;
          style_display := style_display part |}
  else part.

(** The layout effect (lines 269-293): the page it leaves, or the TypeError
    of [region.hidden] when the highlight has an HTML part and [regs] has no
    region of its id. *)
Definition layoutEffect (st : State) (highlight : PDFRegion) (page : Page)
  : exn + Page :=
  let region := find_region st highlight in
  let color := highlight_color st highlight in
  match querySelector (id_text (_id highlight)) page with
  | None => inr page
  | Some el =>
      match region with
      | Some r =>
          inr (set_elements
                 (update_selected (id_text (_id highlight))
                    (λ el, set_parts (tint color r <$> parts el) el)
                    (elements page))
                 page)
      | None =>
          if existsb isHTMLElement (parts el) then inl (TypeError "hidden")
          else inr page
      end
  end.

(** ** The loop of [updateRegions], region by region *)

(** The snapshot a region of [regs] contributes, when its derivation ends. *)
Definition derived_of (m : PDFModel) (region : PDFRegionModel)
  : option PDFRegion :=
  match deriveRegion m region with
  | inr (r, _) => Some r
  | inl _ => None
  end.

(** The region as the derivation leaves it in the store. *)
Definition refreshed_of (m : PDFModel) (region : PDFRegionModel)
  : PDFRegionModel :=
  match deriveRegion m region with
  | inr (_, region') => region'
  | inl _ => region
  end.

(** What the derivation of a region sends to [console.error]. *)
Definition thrown_of (m : PDFModel) (region : PDFRegionModel)
  : option LogEntry :=
  match deriveRegion m region with
  | inr _ => None
  | inl err => Some (ConsoleError err)
  end.

(** ** The store's side, for worked examples *)

(** Modelled from the spec: [getAvailableStates] is the tag's query for the
    label controls currently selected by the user (section 3,
    [activeLabelStates]); it is declared outside this file. *)
Definition selected_controls (m : PDFModel) (ann : Annotation)
  : list Control * Annotation :=
  (filter (λ s, isSelected s) (default [] (toNames ann)), ann).

(** Modelled from the spec: [createResult] is the annotation store's
    creation contract (section 6), returning the Result or null; it is
    declared outside this file.  A store that accepts records the new
    region among [regs] with the Result behind it. *)
Definition store_createResult (accept : bool) (av : obj)
    (lbls : string * list string) (control : Control) (m : PDFModel)
    (ann : Annotation) : Maybe Result * Annotation :=
  if accept then
    let txt :=
      match get_prop "text" av with Some (JStr s) => Some s | _ => None end in
    let res :=
      {| value_text := txt;
         selectedLabels :=
           filter (λ l, label_value l ∈ lbls.2) (children control);
         area := None |} in
    let stored :=
      {| props := {| _id := None; type := "pdfregion"; object := name m;
                     position := default JUndefined (get_prop "position" av);
                     text := txt; label := None |};
         id := match get_prop "id" av with Some (JStr s) => s | _ => "" end;
         results := [res]; labels := Some lbls.2; hidden := false;
         selected := false |} in
    (Obj res, {| regs := regs ann ++ [stored]; toNames := toNames ann |})
  else (Null, ann).

(** Modelled from the spec: the store side of [addRegion], with ids
    numbered in the order they are asked for. *)
Definition store (accept : bool) : Collaborators :=
  {| getAvailableStates := selected_controls;
     createResult := store_createResult accept;
     annotation_addRegion := λ _ ann, ann;
     guidGenerator :=
       λ n, ("region-" ++ NilEmpty.string_of_uint (Nat.to_uint n))%string |}.


(** ** Worked data: the labeling configuration of the PDF template *)

Definition person : Label :=
  {| label_value := "Person"; background := "#FF0000" |}.

Definition organization : Label :=
  {| label_value := "Organization"; background := "#0000FF" |}.

(** The [<Labels name="label" toName="pdf">] control, with "Person" chosen
    or nothing chosen. *)
Definition labels_control (chosen : bool) : Control :=
  {| isSelected := chosen; valueType := "labels";
     selectedValues := if chosen then ["Person"] else [];
     children := [person; organization] |}.

(** The [<PDF name="pdf" value="$url" />] tag with an empty region list. *)
Definition pdf (enabled : bool) (save : jsval) : PDFModel :=
  {| name := "pdf"; value := Some "$url"; selectionenabled := enabled;
     highlightcolor := None; showlabels := None; savetextresult := save;
     _value := "https://example.org/doc.pdf"; regions := [] |}.

(** A selection on the first page. *)
Definition first_page : jsval :=
  JObj [("pageNumber", JNum 1);
        ("boundingRect",
         JObj [("x1", JNum 10); ("y1", JNum 10); ("x2", JNum 110);
               ("y2", JNum 30)])].

Definition alice_selection : HighlightData :=
  {| hd_position := first_page;
     content := {| content_text := Some "Alice"; image := None |} |}.

(** The region that selection becomes under the label "Person". *)
Definition alice : PDFRegion :=
  {| _id := Some "r1"; type := "pdfregion"; object := "pdf";
     position := first_page; text := Some "Alice"; label := Some "Person" |}.

(** A second region carrying the id of the first. *)
Definition alice_twin : PDFRegion :=
  {| _id := Some "r1"; type := "pdfregion"; object := "pdf";
     position := JNull; text := Some "Alice Liddell"; label := Some "Person" |}.

(** The store's region behind [alice], with its Result labelled "Person". *)
Definition alice_area : PDFRegionModel :=
  {| props := {| _id := None; type := "pdfregion"; object := "pdf";
                 position := first_page; text := Some "Alice";
                 label := None |};
     id := "r1";
     results :=
       [{| value_text := None; selectedLabels := [person]; area := None |}];
     labels := Some ["Person"]; hidden := false; selected := false |}.

(** A second region of the store, "Bob" on the same page. *)
Definition bob_area : PDFRegionModel :=
  {| props := {| _id := None; type := "pdfregion"; object := "pdf";
                 position := first_page; text := Some "Bob";
                 label := None |};
     id := "r2";
     results :=
       [{| value_text := Some "Bob"; selectedLabels := [person];
           area := None |}];
     labels := Some ["Person"]; hidden := false; selected := false |}.

(** A region of the store with no text and no Result behind it. *)
Definition bare_area : PDFRegionModel :=
  {| props := {| _id := None; type := "pdfregion"; object := "pdf";
                 position := first_page; text := None; label := None |};
     id := "r3"; results := []; labels := Some ["Person"];
     hidden := false; selected := false |}.

(** A page showing that region as a highlight of two parts, the second of
    them outside the viewport, and another highlight before it. *)
Definition two_part_page : Page :=
  {| elements :=
       [{| data_highlight_id := "r0";
           parts :=
             [{| isHTMLElement := true; style_background := "#0000FF26";
                 style_display := "unset" |}];
           rect := {| top := 0; left := 0; bottom := 20; right := 100 |};
           scrollIntoViewCalls := 0 |};
        {| data_highlight_id := "r1";
           parts :=
             [{| isHTMLElement := true; style_background := "";
                 style_display := "" |};
              {| isHTMLElement := true; style_background := "";
                 style_display := "" |}];
           rect := {| top := 700; left := 10; bottom := 900; right := 110 |};
           scrollIntoViewCalls := 0 |}];
     innerHeight := 800; innerWidth := 1200;
     clientHeight := 800; clientWidth := 1200 |}.

(** A state of the tag with the given controls and store regions. *)
Definition state_of (m : PDFModel) (rs : list PDFRegionModel)
    (controls : option (list Control)) : State :=
  {| self := m; annotation := {| regs := rs; toNames := controls |};
     console := []; guids := 0 |}.

(** * Properties *)

(** ** Objects *)

Lemma get_set_prop_eq (k : string) (v : jsval) (o : obj) :
  get_prop k (set_prop k v o) = Some v.
Proof.
  induction o as [|[k' v'] o IH]; simpl.
  - by rewrite String.eqb_refl.
  - destruct (String.eqb k' k) eqn:E; simpl; by rewrite E.
Qed.

Lemma get_set_prop_ne (k k' : string) (v : jsval) (o : obj) :
  k ≠ k' → get_prop k' (set_prop k v o) = get_prop k' o.
Proof.
  intros Hne. induction o as [|[k0 v0] o IH]; simpl.
  - destruct (String.eqb_spec k k'); [done|reflexivity].
  - destruct (String.eqb_spec k0 k) as [->|Hk]; simpl.
    + destruct (String.eqb_spec k k'); [done|reflexivity].
    + destruct (String.eqb k0 k'); [reflexivity|exact IH].
Qed.

(** Assigning to a property the value it holds changes nothing. *)
Lemma set_prop_same (k : string) (v : jsval) (o : obj) :
  get_prop k o = Some v → set_prop k v o = o.
Proof.
  induction o as [|[k' v'] o IH]; simpl; [done|].
  destruct (String.eqb k' k) eqn:E; [by intros [= ->]|].
  intros H. by rewrite IH.
Qed.

(** ** The serializer *)

Lemma strict_eq_yes (v : jsval) :
  strict_eq (Some "yes") v = true ↔ v = JStr "yes".
Proof.
  destruct v as [| | | |s| |]; try (split; discriminate).
  unfold strict_eq. rewrite String.eqb_eq.
  split; [by intros <-|by intros [= ->]].
Qed.

(** With [savetextresult] "yes" the serializer throws. *)
Lemma serialize_throws (owner : PDFModel) (self : PDFRegion) :
  savetextresult owner = JStr "yes" →
  serialize owner self = inl (ReferenceError "isDefined").
Proof. intros Hyes. unfold serialize. by rewrite Hyes. Qed.

(** The value [serialize] builds otherwise: [position] and [text] come
    first and are always there; [label] and [id] follow when truthy. *)
Lemma serialized_value_shape (owner : PDFModel) (self : PDFRegion) :
  savetextresult owner ≠ JStr "yes" →
  serialized_value owner self =
    inr ([("position", position self); ("text", of_maybeNull (text self))]
         ++ (if truthy (of_maybeNull (label self))
             then [("label", of_maybeNull (label self))] else [])
         ++ (if truthy (of_maybeNull (_id self))
             then [("id", of_maybeNull (_id self))] else [])).
Proof.
  intros Hno. unfold serialized_value, serialize.
  destruct (strict_eq (Some "yes") (savetextresult owner)) eqn:E;
    [by apply strict_eq_yes in E|].
  destruct (truthy (of_maybeNull (label self)));
    destruct (truthy (of_maybeNull (_id self))); reflexivity.
Qed.

(** What is returned is the object with that value under [value]. *)
Lemma serialize_value (owner : PDFModel) (self : PDFRegion) (v : obj) :
  serialized_value owner self = inr v →
  serialize owner self = inr [("value", JObj v)].
Proof.
  unfold serialized_value, serialize.
  destruct (strict_eq (Some "yes") (savetextresult owner)); [done|].
  simpl. by intros [= <-].
Qed.

(** C1, at a region with text "Alice" owned by a tag that does not save
    text ([savetextresult] is "no", or undefined as [TagAttrs] leaves it):
    the serialized value still carries [text: "Alice"].  The claim lets
    [text] appear only under "yes"; the comment on line 49 says the same;
    the object literal on line 45 has put it there already. *)
Theorem serialize_text_without_savetextresult :
  serialized_value (pdf true (JStr "no")) alice
    = inr [("position", first_page); ("text", JStr "Alice");
           ("label", JStr "Person"); ("id", JStr "r1")]
  ∧ serialized_value (pdf true JUndefined) alice
    = inr [("position", first_page); ("text", JStr "Alice");
           ("label", JStr "Person"); ("id", JStr "r1")]
  ∧ serialize (pdf true (JStr "no")) alice
    = inr [("value",
            JObj [("position", first_page); ("text", JStr "Alice");
                  ("label", JStr "Person"); ("id", JStr "r1")])].
Proof. split_and!; reflexivity. Qed.

(** ** The rebuild: [updateRegions] and [needsUpdate] *)

Lemma updateText_updateText (t : option string) (region : PDFRegionModel) :
  updateText t (updateText t region) = updateText t region.
Proof. reflexivity. Qed.

(** A derivation reads the tag's name, not its regions. *)
Lemma derived_of_set_regions (rs : list PDFRegion) (m : PDFModel) :
  derived_of (set_regions rs m) = derived_of m.
Proof. reflexivity. Qed.

Lemma refreshed_of_set_regions (rs : list PDFRegion) (m : PDFModel) :
  refreshed_of (set_regions rs m) = refreshed_of m.
Proof. reflexivity. Qed.

Lemma thrown_of_set_regions (rs : list PDFRegion) (m : PDFModel) :
  thrown_of (set_regions rs m) = thrown_of m.
Proof. reflexivity. Qed.

(** The loop, as what each region of [regs] contributes: the regions as the
    derivations left them, the snapshots pushed behind the ones the tag
    held, the errors logged behind the console's lines. *)
Lemma forEach_regs_spec (rs : list PDFRegionModel) (m : PDFModel)
    (log : list LogEntry) :
  forEach_regs rs m log =
    (refreshed_of m <$> rs,
     set_regions (regions m ++ omap (derived_of m) rs) m,
     log ++ omap (thrown_of m) rs).
Proof.
  revert m log. induction rs as [|region rest IH]; intros m log.
  - simpl. rewrite !app_nil_r. by destruct m.
  - cbn [forEach_regs fmap list_fmap omap list_omap].
    unfold refreshed_of at 1, derived_of at 1, thrown_of at 1.
    destruct (deriveRegion m region) as [err|[r region']].
    + rewrite IH. by rewrite <-app_assoc.
    + rewrite IH. cbn [push regions set_regions].
      by rewrite <-app_assoc.
Qed.

(** Deriving a region again from what the first derivation left of it gives
    the same snapshot and leaves it as it is. *)
Lemma deriveRegion_again (m : PDFModel) (region region' : PDFRegionModel)
    (r : PDFRegion) :
  deriveRegion m region = inr (r, region') →
  deriveRegion m region' = inr (r, region').
Proof.
  unfold deriveRegion. destruct (labels region) as [ls|] eqn:Hl; [|done].
  destruct (truthy (of_maybeNull (text (props region)))) eqn:Ht.
  - intros [= <- <-]. by rewrite Hl, Ht.
  - destruct (results region) as [|r0 rest] eqn:Hr; [done|].
    intros [= <- <-]. cbn [updateText labels props text results id position].
    rewrite Hl.
    by destruct (truthy (of_maybeNull (value_text r0))); [|rewrite Hr].
Qed.

Lemma derived_of_refreshed (m : PDFModel) (region : PDFRegionModel) :
  derived_of m (refreshed_of m region) = derived_of m region.
Proof.
  unfold derived_of, refreshed_of.
  destruct (deriveRegion m region) as [err|[r region']] eqn:E.
  - by rewrite E.
  - by rewrite (deriveRegion_again _ _ _ _ E).
Qed.

Lemma refreshed_of_refreshed (m : PDFModel) (region : PDFRegionModel) :
  refreshed_of m (refreshed_of m region) = refreshed_of m region.
Proof.
  unfold refreshed_of.
  destruct (deriveRegion m region) as [err|[r region']] eqn:E.
  - by rewrite E.
  - by rewrite (deriveRegion_again _ _ _ _ E).
Qed.

(** What [needsUpdate] leaves: the tag with the derived snapshots as its
    regions, the store's regions refreshed, the errors on the console. *)
Lemma needsUpdate_spec (st : State) :
  needsUpdate st =
    {| self :=
         set_regions (omap (derived_of (self st)) (regs (annotation st)))
           (self st);
       annotation :=
         {| regs := refreshed_of (self st) <$> regs (annotation st);
            toNames := toNames (annotation st) |};
       console :=
         console st ++ omap (thrown_of (self st)) (regs (annotation st));
       guids := guids st |}.
Proof.
  unfold needsUpdate, updateRegions. cbn [self annotation console guids].
  by rewrite forEach_regs_spec.
Qed.

(** Every snapshot the rebuild pushes has a null [text]. *)
Lemma derived_of_text (m : PDFModel) (region : PDFRegionModel) (r : PDFRegion) :
  derived_of m region = Some r →
  text r = None ∧ _id r = Some (id region)
  ∧ position r = position (props region)
  ∧ ∃ ls, labels region = Some ls ∧ label r = head ls.
Proof.
  unfold derived_of, deriveRegion.
  destruct (labels region) as [ls|]; [|done].
  destruct (truthy _); [intros [= <-]; simpl; eauto 10|].
  destruct (results region); [done|]. intros [= <-]; simpl; eauto 10.
Qed.


(** C5: a second [needsUpdate] right after the first leaves the same region
    list, entry by entry and field by field, and the same store regions. *)
Theorem needsUpdate_idempotent (st : State) :
  regions (self (needsUpdate (needsUpdate st)))
    = regions (self (needsUpdate st))
  ∧ regs (annotation (needsUpdate (needsUpdate st)))
    = regs (annotation (needsUpdate st)).
Proof.
  rewrite (needsUpdate_spec (needsUpdate st)), (needsUpdate_spec st).
  cbn [self annotation regs regions set_regions].
  rewrite derived_of_set_regions, refreshed_of_set_regions. split.
  - apply list_omap_ext, Forall2_fmap_l, Forall_Forall2_diag, Forall_forall.
    intros region _. apply derived_of_refreshed.
  - rewrite <-list_fmap_compose. apply list_fmap_ext.
    intros i region _. apply refreshed_of_refreshed.
Qed.

(** Each region of [regs] either yields a snapshot or an error. *)
Lemma derived_thrown_length (m : PDFModel) (rs : list PDFRegionModel) :
  length (omap (derived_of m) rs) + length (omap (thrown_of m) rs)
  = length rs.
Proof.
  induction rs as [|region rest IH]; [done|].
  cbn [omap list_omap]. unfold derived_of at 1, thrown_of at 1.
  destruct (deriveRegion m region) as [err|[r region']]; simpl; lia.
Qed.

(** C6: the rebuild leaves exactly the snapshots of the regions of [regs]
    whose derivation ends, in the order of [regs]; each region whose
    derivation throws is logged and left out, and the regions before and
    after it are derived all the same. *)
Theorem needsUpdate_skips_throwing (st : State) :
  regions (self (needsUpdate st))
    = omap (derived_of (self st)) (regs (annotation st))
  ∧ console (needsUpdate st)
    = console st ++ omap (thrown_of (self st)) (regs (annotation st))
  ∧ length (regions (self (needsUpdate st)))
    + length (omap (thrown_of (self st)) (regs (annotation st)))
    = length (regs (annotation st))
  ∧ ∀ before region after err,
      regs (annotation st) = before ++ region :: after →
      deriveRegion (self st) region = inl err →
      regions (self (needsUpdate st))
        = omap (derived_of (self st)) before
          ++ omap (derived_of (self st)) after
      ∧ ConsoleError err ∈ console (needsUpdate st).
Proof.
  rewrite needsUpdate_spec. cbn [self regions console set_regions].
  split_and!; [done|done|apply derived_thrown_length|].
  intros before region after err -> Herr.
  rewrite !omap_app. cbn [omap list_omap].
  unfold derived_of at 2, thrown_of at 2. rewrite Herr. split; [done|].
  rewrite !elem_of_app, elem_of_cons. auto.
Qed.

(** What the rebuild does to one region of the store. *)
Lemma refreshed_of_cases (m : PDFModel) (region : PDFRegionModel) :
  (truthy (of_maybeNull (text (props region))) = true →
   refreshed_of m region = region)
  ∧ (∀ ls r0 rest,
       truthy (of_maybeNull (text (props region))) = false →
       labels region = Some ls →
       results region = r0 :: rest →
       refreshed_of m region = updateText (value_text r0) region)
  ∧ (labels region = None ∨ results region = [] →
     refreshed_of m region = region).
Proof.
  unfold refreshed_of, deriveRegion. split_and!.
  - intros ->. by destruct (labels region).
  - intros ls r0 rest -> -> ->. done.
  - intros [->| ->]; [done|].
    by destruct (labels region),
         (truthy (of_maybeNull (text (props region)))).
Qed.

(** What the rebuild leaves of one region of the store, field by field. *)
Lemma refreshed_of_fields (m : PDFModel) (region : PDFRegionModel) :
  id (refreshed_of m region) = id region
  ∧ results (refreshed_of m region) = results region
  ∧ labels (refreshed_of m region) = labels region
  ∧ hidden (refreshed_of m region) = hidden region
  ∧ selected (refreshed_of m region) = selected region
  ∧ _id (props (refreshed_of m region)) = _id (props region)
  ∧ type (props (refreshed_of m region)) = type (props region)
  ∧ object (props (refreshed_of m region)) = object (props region)
  ∧ position (props (refreshed_of m region)) = position (props region)
  ∧ label (props (refreshed_of m region)) = label (props region)
  ∧ text (props (refreshed_of m region))
    = if truthy (of_maybeNull (text (props region)))
      then text (props region)
      else
        match labels region, results region with
        | Some _, r0 :: _ => value_text r0
        | _, _ => text (props region)
        end.
Proof.
  unfold refreshed_of, deriveRegion.
  destruct (labels region) as [ls|] eqn:Hl;
    destruct (truthy (of_maybeNull (text (props region)))) eqn:Ht;
    destruct (results region) as [|r0 rest] eqn:Hr; simpl;
    rewrite ?Hl, ?Ht, ?Hr; done.
Qed.

Lemma fmap_fixed {A : Type} (f : A → A) (l : list A) (x : A) :
  f <$> l = l → x ∈ l → f x = x.
Proof.
  induction l as [|y l IH]; [by intros _ ?%elem_of_nil|].
  rewrite fmap_cons. intros [= Hy Hl] [->|Hin]%elem_of_cons; auto.
Qed.

(** C9, as the code has it: the rebuild writes into the store.  Of a region
    of [regs] it changes the [text] at most.  A region whose [text] is set
    comes out as it went in.  A region whose [text] is falsy comes out with
    the [value.text] of its first Result as its [text], when it has a
    [labels] array and a first Result; without either its derivation throws
    before the write and it keeps its [text].  So whenever a falsy-text
    region has a first Result whose text is another one, the store after
    the rebuild is not the store before. *)
Theorem needsUpdate_writes_missing_text (st : State) :
  Forall2
    (λ region region',
       id region' = id region
       ∧ results region' = results region
       ∧ labels region' = labels region
       ∧ hidden region' = hidden region
       ∧ selected region' = selected region
       ∧ _id (props region') = _id (props region)
       ∧ type (props region') = type (props region)
       ∧ object (props region') = object (props region)
       ∧ position (props region') = position (props region)
       ∧ label (props region') = label (props region)
       ∧ text (props region')
         = (if truthy (of_maybeNull (text (props region)))
            then text (props region)
            else
              match labels region, results region with
              | Some _, r0 :: _ => value_text r0
              | _, _ => text (props region)
              end)
       ∧ (truthy (of_maybeNull (text (props region))) = true →
          region' = region))
    (regs (annotation st)) (regs (annotation (needsUpdate st)))
  ∧ ∀ region ls r0 rest,
      region ∈ regs (annotation st) →
      truthy (of_maybeNull (text (props region))) = false →
      labels region = Some ls →
      results region = r0 :: rest →
      value_text r0 ≠ text (props region) →
      regs (annotation (needsUpdate st)) ≠ regs (annotation st).
Proof.
  rewrite needsUpdate_spec. cbn [annotation regs]. split.
  - apply Forall2_fmap_r, Forall_Forall2_diag, Forall_forall.
    intros region _. unfold compose.
    pose proof (refreshed_of_fields (self st) region) as Hfields.
    pose proof (refreshed_of_cases (self st) region) as [Hset _].
    destruct Hfields as (?&?&?&?&?&?&?&?&?&?&?). split_and!; done.
  - intros region ls r0 rest Hin Hfalsy Hls Hres Hne Hsame.
    pose proof (fmap_fixed _ _ _ Hsame Hin) as Hfixed.
    pose proof (refreshed_of_fields (self st) region) as Hfields.
    do 10 (destruct Hfields as [_ Hfields]).
    rewrite Hfixed, Hfalsy, Hls, Hres in Hfields. by apply Hne.
Qed.

(** C9, at a region of the store with no text and no Result: the rebuild
    leaves it as it was, its [text] still null; reading the Result throws,
    the error is logged and the tag gets no region for it. *)
Lemma needsUpdate_leaves_bare_region :
  truthy (of_maybeNull (text (props bare_area))) = false
  ∧ regs
      (annotation
         (needsUpdate (state_of (pdf true JUndefined) [bare_area] None)))
    = [bare_area]
  ∧ regions
      (self (needsUpdate (state_of (pdf true JUndefined) [bare_area] None)))
    = []
  ∧ console (needsUpdate (state_of (pdf true JUndefined) [bare_area] None))
    = [ConsoleError (TypeError "value")].
Proof. split_and!; reflexivity. Qed.

(** The rebuild is not read-only: a store region without text has it
    filled in from its Result. *)
Lemma needsUpdate_not_read_only :
  let stored :=
    {| props := {| _id := None; type := "pdfregion"; object := "pdf";
                   position := first_page; text := None; label := None |};
       id := "r1";
       results :=
         [{| value_text := Some "Alice"; selectedLabels := [person];
             area := None |}];
       labels := Some ["Person"]; hidden := false; selected := false |} in
  let st := state_of (pdf true JUndefined) [stored] None in
  regs (annotation (needsUpdate st)) = [updateText (Some "Alice") stored]
  ∧ regs (annotation (needsUpdate st)) ≠ regs (annotation st).
Proof. split; [reflexivity|discriminate]. Qed.


(** ** [addRegion] *)

Section AddRegion.

Context `{Collaborators}.

(** A Result is handed back exactly when one region was pushed, and that
    region is the Result's [area]. *)
Lemma addRegion_appends_iff_result (highlightData : HighlightData)
    (st : State) :
  regions (self (addRegion highlightData st).2)
  = regions (self st)
    ++ match (addRegion highlightData st).1 with
       | Obj res => option_list (area res)
       | _ => []
       end.
Proof.
  unfold addRegion.
  destruct (getAvailableStates (self st) (annotation st))
    as [[|control rest] ann1]; simpl.
  - by rewrite app_nil_r.
  - destruct (createResult _ _ _ _ _) as [[| |res] ann2]; simpl;
      by rewrite ?app_nil_r.
Qed.

(** C3, as the code has it: when [getAvailableStates()] is empty, that is
    when no label control has an active selection, [addRegion] returns
    undefined, asks for no id, calls neither [createResult] nor the store's
    [addRegion], and leaves the tag with its regions as it was.
    [selectionenabled] is not read. *)
Theorem addRegion_without_available_states (highlightData : HighlightData)
    (st : State) :
  (getAvailableStates (self st) (annotation st)).1 = [] →
  (addRegion highlightData st).1 = Undefined
  ∧ self (addRegion highlightData st).2 = self st
  ∧ annotation (addRegion highlightData st).2
    = (getAvailableStates (self st) (annotation st)).2
  ∧ guids (addRegion highlightData st).2 = guids st
  ∧ console (addRegion highlightData st).2 = console st.
Proof.
  unfold addRegion.
  destruct (getAvailableStates (self st) (annotation st)) as [available ann1].
  simpl. by intros ->.
Qed.

(** C4: when the [createResult] call of [addRegion] returns no Result, the
    tag is left as it was, region list included, and [addRegion] returns
    that falsy value; when it returns a Result, exactly the one new region
    is pushed behind the others and the Result handed back has it as its
    [area]. *)
Theorem addRegion_atomic (highlightData : HighlightData) (st : State)
    (control : Control) (rest : list Control) (ann1 ann2 : Annotation)
    (result : Maybe Result) :
  getAvailableStates (self st) (annotation st) = (control :: rest, ann1) →
  createResult
    (areaValue (self st) (guidGenerator (guids st)) highlightData)
    (valueType control, selectedValues control) control (self st) ann1
  = (result, ann2) →
  (is_obj result = false →
   (addRegion highlightData st).1 = result
   ∧ self (addRegion highlightData st).2 = self st
   ∧ annotation (addRegion highlightData st).2 = ann2)
  ∧ (∀ res, result = Obj res →
     let r :=
       newRegion (self st) (guidGenerator (guids st)) highlightData
         (selectedValues control) in
     (addRegion highlightData st).1 = Obj (set_area r res)
     ∧ regions (self (addRegion highlightData st).2)
       = regions (self st) ++ [r]
     ∧ annotation (addRegion highlightData st).2
       = annotation_addRegion r ann2).
Proof.
  intros Hstates Hcreate. unfold addRegion. rewrite Hstates, Hcreate.
  split.
  - by destruct result.
  - by intros res ->.
Qed.

(** [onSelectionFinished] clears the selection exactly when [addRegion]
    handed back a Result, and warns when the tag has no label control. *)
Lemma onSelectionFinished_cleared (pos : jsval) (c : Content) (st : State) :
  hasStates st = true →
  (onSelectionFinished pos c st).1
  = is_obj (addRegion {| hd_position := pos; content := c |} st).1.
Proof.
  intros Hs. unfold onSelectionFinished. rewrite Hs. simpl.
  by destruct (addRegion _ st).
Qed.

Lemma onSelectionFinished_no_states (pos : jsval) (c : Content) (st : State) :
  hasStates st = false →
  (onSelectionFinished pos c st).1 = false
  ∧ self (onSelectionFinished pos c st).2 = self st
  ∧ console (onSelectionFinished pos c st).2
    = console st ++ [ConsoleWarn "No labels selected"].
Proof. intros Hs. unfold onSelectionFinished. by rewrite Hs. Qed.

End AddRegion.

(** The [areaValue] of the selection "Alice": the properties of the position
    spread between [position] and [text]. *)
Example areaValue_alice :
  areaValue (pdf true JUndefined) "region-0" alice_selection
  = [("id", JStr "region-0"); ("object", JStr "pdf");
     ("type", JStr "pdfregion"); ("origin", JStr "manual");
     ("position", first_page); ("pageNumber", JNum 1);
     ("boundingRect",
      JObj [("x1", JNum 10); ("y1", JNum 10); ("x2", JNum 110);
            ("y2", JNum 30)]);
     ("text", JStr "Alice"); ("classification", JBool false)].
Proof. reflexivity. Qed.

(** A position that is an array has its elements spread under their
    indices. *)
Example areaValue_array_position :
  get_prop "0"
    (areaValue (pdf true JUndefined) "region-0"
       {| hd_position := JArr [JNum 7; JNum 8];
          content := {| content_text := None; image := None |} |})
  = Some (JNum 7)
  ∧ get_prop "text"
      (areaValue (pdf true JUndefined) "region-0"
         {| hd_position := JArr [JNum 7; JNum 8];
            content := {| content_text := None; image := None |} |})
    = Some JUndefined.
Proof. split; reflexivity. Qed.

(** The scenario of the template: "Person" chosen, "Alice" selected on the
    first page.  One Result comes back, the store holds one region, the tag
    holds one region labelled "Person" with the text "Alice", the selection
    is cleared, and the region serializes with all four keys. *)
Example person_scenario :
  let st := state_of (pdf true JUndefined) [] (Some [labels_control true]) in
  let out :=
    @onSelectionFinished (store true) first_page
      {| content_text := Some "Alice"; image := None |} st in
  out.1 = true
  ∧ length (regs (annotation out.2)) = 1%nat
  ∧ regions (self out.2)
    = [{| _id := Some "region-0"; type := "pdfregion"; object := "pdf";
          position := first_page; text := Some "Alice";
          label := Some "Person" |}]
  ∧ (serialize (self out.2) <$> regions (self out.2))
    = [inr [("value",
             JObj [("position", first_page); ("text", JStr "Alice");
                   ("label", JStr "Person"); ("id", JStr "region-0")])]].
Proof. split_and!; reflexivity. Qed.

(** The same with nothing chosen: no region, and the selection stays. *)
Example nothing_chosen_scenario :
  let st := state_of (pdf true JUndefined) [] (Some [labels_control false]) in
  let out :=
    @onSelectionFinished (store true) first_page
      {| content_text := Some "Alice"; image := None |} st in
  out.1 = false ∧ regions (self out.2) = [] ∧ console out.2 = [].
Proof. split_and!; reflexivity. Qed.

(** With no control selected the store's query comes back empty. *)
Lemma selected_controls_nil (m : PDFModel) (ann : Annotation) :
  (∀ c, c ∈ default [] (toNames ann) → isSelected c = false) →
  (selected_controls m ann).1 = [].
Proof.
  intros Hnone. unfold selected_controls. simpl.
  induction (default [] (toNames ann)) as [|c l IH]; [done|].
  rewrite filter_cons. rewrite (Hnone c) by left. simpl.
  apply IH. intros c' Hc'. apply Hnone. by right.
Qed.

(** C3, at a tag with selection disabled and the label "Person" chosen, on
    a store that accepts: [addRegion] hands back a Result and the region
    list goes from empty to the one new region. *)
Lemma addRegion_ignores_selectionenabled :
  selectionenabled
    (self (state_of (pdf false JUndefined) [] (Some [labels_control true])))
  = false
  ∧ is_obj
      (@addRegion (store true) alice_selection
         (state_of (pdf false JUndefined) [] (Some [labels_control true]))).1
    = true
  ∧ regions
      (self
         (@addRegion (store true) alice_selection
            (state_of (pdf false JUndefined) []
               (Some [labels_control true]))).2)
    = [{| _id := Some "region-0"; type := "pdfregion"; object := "pdf";
          position := first_page; text := Some "Alice";
          label := Some "Person" |}].
Proof. split_and!; reflexivity. Qed.

(** With nothing chosen in the label control, [addRegion] returns undefined
    and the region list stays empty. *)
Lemma addRegion_without_available_states_witness :
  (@getAvailableStates (store true)
     (self (state_of (pdf true JUndefined) [] (Some [labels_control false])))
     (annotation
        (state_of (pdf true JUndefined) [] (Some [labels_control false])))).1
  = []
  ∧ (@addRegion (store true) alice_selection
       (state_of (pdf true JUndefined) [] (Some [labels_control false]))).1
    = Undefined
  ∧ regions
      (self
         (@addRegion (store true) alice_selection
            (state_of (pdf true JUndefined) []
               (Some [labels_control false]))).2)
    = [].
Proof.
  split; [reflexivity|].
  destruct
    (@addRegion_without_available_states (store true) alice_selection
       (state_of (pdf true JUndefined) [] (Some [labels_control false]))
       eq_refl) as (Hret & Hself & _).
  split; [exact Hret|]. by rewrite Hself.
Defined.

(** On a store that refuses, [addRegion] returns null and the tag is as it
    was. *)
Lemma addRegion_atomic_witness :
  (@addRegion (store false) alice_selection
     (state_of (pdf true JUndefined) [] (Some [labels_control true]))).1
  = Null
  ∧ self
      (@addRegion (store false) alice_selection
         (state_of (pdf true JUndefined) [] (Some [labels_control true]))).2
    = pdf true JUndefined.
Proof.
  destruct
    (@addRegion_atomic (store false) alice_selection
       (state_of (pdf true JUndefined) [] (Some [labels_control true]))
       (labels_control true) []
       {| regs := []; toNames := Some [labels_control true] |}
       {| regs := []; toNames := Some [labels_control true] |}
       Null eq_refl eq_refl) as [Hfalsy _].
  destruct (Hfalsy eq_refl) as (Hret & Hself & _).
  split; [exact Hret|exact Hself].
Defined.

(** ** [deleteRegion] and [destroyRegion] *)

(** Two [_id]s strictly equal to one value are the same. *)
Lemma strict_eq_inj (a b : option string) (i : jsval) :
  strict_eq a i = true → strict_eq b i = true → a = b.
Proof.
  destruct a as [s|], b as [t|], i; simpl; try done.
  intros ->%String.eqb_eq ->%String.eqb_eq. done.
Qed.

Lemma elem_of_deleteRegion (i : jsval) (m : PDFModel) (r : PDFRegion) :
  r ∈ regions (deleteRegion i m)
  ↔ r ∈ regions m ∧ strict_eq (_id r) i = false.
Proof.
  unfold deleteRegion. cbn [regions set_regions].
  rewrite list_elem_of_filter.
  destruct (strict_eq (_id r) i); unfold Is_true; simpl; intuition congruence.
Qed.

Lemma filter_none_matching (i : jsval) (rs : list PDFRegion) :
  Forall (λ x, strict_eq (_id x) i = false) rs →
  filter (λ r, negb (strict_eq (_id r) i)) rs = rs.
Proof.
  induction 1 as [|r rs Hr _ IH]; [done|].
  rewrite filter_cons, Hr. simpl. by rewrite IH.
Qed.

Lemma length_deleteRegion (i : jsval) (m : PDFModel) :
  length (regions m)
  = length (regions (deleteRegion i m))
    + length (filter (λ r, strict_eq (_id r) i) (regions m)).
Proof.
  unfold deleteRegion. cbn [regions set_regions].
  induction (regions m) as [|r rs IH]; [done|].
  rewrite !filter_cons. destruct (strict_eq (_id r) i); simpl; lia.
Qed.

(** With pairwise distinct [_id]s at most one entry matches. *)
Lemma matching_at_most_one (i : jsval) (rs : list PDFRegion) :
  NoDup (_id <$> rs) →
  (length (filter (λ r, strict_eq (_id r) i) rs) ≤ 1)%nat.
Proof.
  induction rs as [|r rs IH]; [simpl; lia|].
  rewrite fmap_cons, NoDup_cons. intros [Hnotin Hnodup].
  rewrite filter_cons. destruct (strict_eq (_id r) i) eqn:Hr; simpl; [|auto].
  assert (filter (λ r, strict_eq (_id r) i) rs = []) as ->; [|simpl; lia].
  clear IH Hnodup. induction rs as [|x rs IH]; [done|].
  rewrite filter_cons. destruct (strict_eq (_id x) i) eqn:Hx; simpl.
  - exfalso. apply Hnotin. rewrite (strict_eq_inj _ _ _ Hr Hx). by left.
  - apply IH. intros Hin. apply Hnotin. by right.
Qed.

(** C7, as the code has it: [deleteRegion(id)] removes every entry whose
    [_id] is [id] and keeps the others in their order.  When one entry
    matches, exactly that one goes; when none does, the tag is left as it
    was; when the [_id]s of the list are pairwise distinct, at most one
    entry goes. *)
Theorem deleteRegion_removes_matching (i : jsval) (m : PDFModel) :
  regions (deleteRegion i m) `sublist_of` regions m
  ∧ (∀ r, r ∈ regions (deleteRegion i m)
          ↔ r ∈ regions m ∧ strict_eq (_id r) i = false)
  ∧ length (regions m)
    = length (regions (deleteRegion i m))
      + length (filter (λ r, strict_eq (_id r) i) (regions m))
  ∧ (∀ before r after,
       regions m = before ++ r :: after →
       strict_eq (_id r) i = true →
       Forall (λ x, strict_eq (_id x) i = false) (before ++ after) →
       regions (deleteRegion i m) = before ++ after)
  ∧ (Forall (λ x, strict_eq (_id x) i = false) (regions m) →
     deleteRegion i m = m)
  ∧ (NoDup (_id <$> regions m) →
     (length (regions m) ≤ S (length (regions (deleteRegion i m))))%nat).
Proof.
  split_and!.
  - apply sublist_filter.
  - apply elem_of_deleteRegion.
  - apply length_deleteRegion.
  - intros before r after Hm Hr [Hb Ha]%Forall_app.
    unfold deleteRegion. cbn [regions set_regions].
    rewrite Hm, filter_app, filter_cons, Hr. simpl.
    by rewrite !filter_none_matching.
  - intros Hnone. unfold deleteRegion.
    rewrite filter_none_matching by done. by destruct m.
  - intros Hnodup. rewrite (length_deleteRegion i m).
    pose proof (matching_at_most_one i _ Hnodup). lia.
Qed.

(** C7, at a list of two entries with the [_id] "r1": one call removes
    both. *)
Lemma deleteRegion_removes_both_twins :
  regions
    (deleteRegion (JStr "r1")
       (set_regions [alice; alice_twin] (pdf true JUndefined)))
  = []
  ∧ length (regions (set_regions [alice; alice_twin] (pdf true JUndefined)))
    = 2%nat.
Proof. split; reflexivity. Qed.

(** The Result's teardown: [PDFRegion.beforeDestroy] hands the region's
    [id] to the parent's [deleteRegion], when there is a parent. *)
Lemma region_beforeDestroy_deletes (region : PDFRegionModel) (m : PDFModel) :
  region_beforeDestroy region (Some m) = Some (deleteRegion (JStr (id region)) m)
  ∧ region_beforeDestroy region None = None.
Proof. done. Qed.

(** C10: [destroyRegion(id)] and [deleteRegion(id)] leave the same tag, its
    region list being the entries whose [_id] is not [id]. *)
Theorem destroyRegion_deleteRegion (i : jsval) (m : PDFModel) :
  destroyRegion i m = deleteRegion i m
  ∧ (∀ r, r ∈ regions (destroyRegion i m)
          ↔ r ∈ regions m ∧ strict_eq (_id r) i = false)
  ∧ regions (destroyRegion i m) `sublist_of` regions m.
Proof.
  split_and!; [done| |apply sublist_filter].
  intros r. apply elem_of_deleteRegion.
Qed.

(** ** Highlight colouring *)

Lemma querySelector_update_selected (i : string)
    (f : HighlightElement → HighlightElement) (page : Page) :
  (∀ el, data_highlight_id (f el) = data_highlight_id el) →
  querySelector i (set_elements (update_selected i f (elements page)) page)
  = f <$> querySelector i page.
Proof.
  intros Hf. unfold querySelector. cbn [elements set_elements].
  induction (elements page) as [|el els IH]; [done|].
  cbn [update_selected]. destruct (decide (data_highlight_id el = i)) as [E|E].
  - rewrite !filter_cons, Hf. by rewrite !decide_True.
  - rewrite !filter_cons. by rewrite !decide_False.
Qed.

(** After [changeHighlightColor(color)] every part of the region's
    highlight that is an HTML element has that background. *)
Lemma changeHighlightColor_paints (color : string) (region : PDFRegionModel)
    (page : Page) (el : HighlightElement) :
  querySelector (id region) (changeHighlightColor color region page) = Some el →
  Forall (λ p, isHTMLElement p = true → style_background p = color) (parts el).
Proof.
  unfold changeHighlightColor. rewrite querySelector_update_selected by done.
  destruct (querySelector (id region) page) as [el0|]; [|done].
  intros [= <-]. cbn [parts set_parts].
  apply Forall_fmap, Forall_forall. intros p _. unfold paint. simpl.
  destruct (isHTMLElement p) eqn:E; [done|]. by rewrite E.
Qed.

(** Scrolling a highlight into view leaves its parts as they are. *)
Lemma scrollIfHidden_parts (region : PDFRegionModel) (page : Page)
    (el : HighlightElement) :
  querySelector (id region) (scrollIfHidden region page) = Some el →
  ∃ el0, querySelector (id region) page = Some el0 ∧ parts el = parts el0.
Proof.
  unfold scrollIfHidden.
  destruct (querySelector (id region) page) as [el0|] eqn:E; [|by rewrite E].
  destruct (isInViewport (rect el0) page).
  - rewrite E. intros [= <-]. eauto.
  - rewrite querySelector_update_selected, E by done.
    intros [= <-]. eauto.
Qed.

(** C8: for a region whose first Result's first selected label has the
    background B, [selectRegion] paints its highlight with B and
    [afterUnselectRegion] paints it with B followed by "26". *)
Theorem highlight_color_selected_unselected (region : PDFRegionModel)
    (page : Page) (r0 : Result) (rest : list Result) (l0 : Label)
    (ls : list Label) (B : string) :
  results region = r0 :: rest →
  selectedLabels r0 = l0 :: ls →
  background l0 = B →
  (∃ page',
     selectRegion region page = inr page'
     ∧ page' = scrollIfHidden region (changeHighlightColor B region page)
     ∧ ∀ el, querySelector (id region) page' = Some el →
         Forall (λ p, isHTMLElement p = true → style_background p = B)
           (parts el))
  ∧ (∃ page',
       afterUnselectRegion region page = inr page'
       ∧ page' = changeHighlightColor (B ++ "26")%string region page
       ∧ ∀ el, querySelector (id region) page' = Some el →
           Forall
             (λ p, isHTMLElement p = true →
                   style_background p = (B ++ "26")%string)
             (parts el)).
Proof.
  intros Hr Hl HB. unfold selectRegion, afterUnselectRegion, first_background.
  rewrite Hr, Hl, HB. split.
  - eexists. split_and!; [done..|].
    intros el (el0 & Hel0 & ->)%scrollIfHidden_parts.
    by eapply changeHighlightColor_paints.
  - eexists. split_and!; [done..|].
    intros el Hel. by eapply changeHighlightColor_paints.
Qed.

(** The backgrounds of the two parts of the "Person" highlight after it is
    selected and after it is unselected. *)
Example person_highlight_colors :
  sum_map (λ err : exn, err)
    (λ page,
       style_background <$> default [] (parts <$> querySelector "r1" page))
    (selectRegion alice_area two_part_page)
  = inr ["#FF0000"; "#FF0000"]
  ∧ sum_map (λ err : exn, err)
      (λ page,
         style_background <$> default [] (parts <$> querySelector "r1" page))
      (afterUnselectRegion alice_area two_part_page)
    = inr ["#FF000026"; "#FF000026"]
  ∧ sum_map (λ err : exn, err) (λ page, scrollIntoViewCalls <$> elements page)
      (selectRegion alice_area two_part_page)
    = inr [0; 1]%nat.
Proof. split_and!; reflexivity. Qed.

(** The "Person" highlight: "#FF0000" selected, "#FF000026" unselected. *)
Lemma highlight_color_selected_unselected_witness :
  (∃ page',
     selectRegion alice_area two_part_page = inr page'
     ∧ page'
       = scrollIfHidden alice_area
           (changeHighlightColor "#FF0000" alice_area two_part_page)
     ∧ ∀ el, querySelector "r1" page' = Some el →
         Forall (λ p, isHTMLElement p = true → style_background p = "#FF0000")
           (parts el))
  ∧ (∃ page',
       afterUnselectRegion alice_area two_part_page = inr page'
       ∧ page' = changeHighlightColor "#FF000026" alice_area two_part_page
       ∧ ∀ el, querySelector "r1" page' = Some el →
           Forall
             (λ p, isHTMLElement p = true → style_background p = "#FF000026")
             (parts el)).
Proof.
  exact
    (highlight_color_selected_unselected alice_area two_part_page
       {| value_text := None; selectedLabels := [person]; area := None |} []
       person [] "#FF0000" eq_refl eq_refl eq_refl).
Defined.

(** * Further properties of the code *)

(** ** The serializer *)

(** X1: What [serialize] returns.  For a tag whose [savetextresult] is not
    "yes", as every tag is that [TagAttrs] builds, it is an object whose
    [value] has the keys [position] and [text] always (a null text
    included), then [label] when the label is a non-empty string, then [id]
    when the [_id] is a non-empty string, each holding the region's own
    field.  For a tag whose [savetextresult] is "yes" it throws: the name
    [isDefined] is bound nowhere. *)
Theorem serialize_keys_exact (owner : PDFModel) (self : PDFRegion) :
  (savetextresult owner = JStr "yes" →
   serialize owner self = inl (ReferenceError "isDefined"))
  ∧ (savetextresult owner ≠ JStr "yes" →
     ∃ v,
       serialize owner self = inr [("value", JObj v)]
       ∧ keys v
         = ["position"; "text"]
           ++ match label self with
              | Some s => if String.eqb s "" then [] else ["label"]
              | None => []
              end
           ++ match _id self with
              | Some s => if String.eqb s "" then [] else ["id"]
              | None => []
              end
       ∧ ∀ k x, get_prop k v = Some x →
           (k = "position" ∧ x = position self)
           ∨ (k = "text" ∧ x = of_maybeNull (text self))
           ∨ (k = "label" ∧ x = of_maybeNull (label self))
           ∨ (k = "id" ∧ x = of_maybeNull (_id self))).
Proof.
  split; [apply serialize_throws|]. intros Hno.
  pose proof (serialized_value_shape owner self Hno) as Hshape.
  eexists. split; [by apply serialize_value|]. unfold keys. split.
  - destruct (label self) as [l|], (_id self) as [i|]; simpl;
      try destruct (String.eqb l ""); try destruct (String.eqb i "");
      reflexivity.
  - intros k x.
    destruct (truthy (of_maybeNull (label self))),
      (truthy (of_maybeNull (_id self))); cbn [get_prop app];
      repeat
        match goal with
        | |- context [String.eqb ?a k] =>
            destruct (String.eqb_spec a k) as [<-|_];
            [intros [= <-]; auto 10|]
        end;
      done.
Qed.

(** ** The rebuild *)

Lemma updateRegions_spec (st : State) :
  updateRegions st =
    {| self :=
         set_regions
           (regions (self st)
            ++ omap (derived_of (self st)) (regs (annotation st)))
           (self st);
       annotation :=
         {| regs := refreshed_of (self st) <$> regs (annotation st);
            toNames := toNames (annotation st) |};
       console :=
         console st ++ omap (thrown_of (self st)) (regs (annotation st));
       guids := guids st |}.
Proof. unfold updateRegions. by rewrite forEach_regs_spec. Qed.

(** X2: [updateRegions] on its own keeps what the tag held and puts the rebuilt
    regions behind it, so a second call in a row holds them twice; what
    [needsUpdate] leaves does not depend on what the tag held. *)
Theorem updateRegions_appends (st : State) :
  regions (self (updateRegions st))
  = regions (self st) ++ regions (self (needsUpdate st))
  ∧ regions (self (updateRegions (updateRegions st)))
    = regions (self st) ++ regions (self (needsUpdate st))
      ++ regions (self (needsUpdate st))
  ∧ annotation (updateRegions st) = annotation (needsUpdate st)
  ∧ ∀ held,
      regions
        (self
           (needsUpdate
              {| self := set_regions held (self st);
                 annotation := annotation st; console := console st;
                 guids := guids st |}))
      = regions (self (needsUpdate st)).
Proof.
  rewrite (updateRegions_spec (updateRegions st)), (updateRegions_spec st),
    needsUpdate_spec.
  cbn [self annotation regs regions set_regions].
  rewrite derived_of_set_regions. split_and!; [done| |done|].
  - rewrite <-app_assoc. do 2 f_equal.
    apply list_omap_ext, Forall2_fmap_l, Forall_Forall2_diag, Forall_forall.
    intros region _. apply derived_of_refreshed.
  - intros held. by rewrite needsUpdate_spec.
Qed.

Lemma derived_ids_sublist (m : PDFModel) (rs : list PDFRegionModel) :
  (_id <$> omap (derived_of m) rs) `sublist_of` (Some <$> (id <$> rs)).
Proof.
  induction rs as [|region rest IH]; [done|].
  cbn [omap list_omap fmap list_fmap].
  destruct (derived_of m region) as [r|] eqn:E.
  - apply derived_of_text in E as (_ & Hid & _).
    cbn [fmap list_fmap]. rewrite Hid. by apply sublist_skip.
  - by apply sublist_cons.
Qed.

(** X3: When the regions of the store have pairwise distinct ids, so have the
    rebuilt regions of the tag, and each carries the id, the position and
    the first label of a region of the store. *)
Theorem needsUpdate_distinct_ids (st : State) :
  NoDup (id <$> regs (annotation st)) →
  NoDup (_id <$> regions (self (needsUpdate st)))
  ∧ Forall
      (λ r, ∃ region ls,
         region ∈ regs (annotation st)
         ∧ _id r = Some (id region)
         ∧ position r = position (props region)
         ∧ labels region = Some ls ∧ label r = head ls
         ∧ type r = "pdfregion" ∧ object r = name (self st))
      (regions (self (needsUpdate st))).
Proof.
  intros Hnodup. rewrite needsUpdate_spec. cbn [self regions set_regions].
  split.
  - eapply sublist_NoDup; [|apply derived_ids_sublist].
    by apply (NoDup_fmap_2 Some).
  - apply Forall_forall. intros r (region & Hin & Hr)%list_elem_of_omap.
    pose proof (derived_of_text _ _ _ Hr) as (_ & Hid & Hpos & ls & Hls & Hl).
    exists region, ls. split_and!; try done.
    + revert Hr. unfold derived_of, deriveRegion. rewrite Hls.
      destruct (truthy _); [by intros [= <-]|].
      destruct (results region); [done|]. by intros [= <-].
    + revert Hr. unfold derived_of, deriveRegion. rewrite Hls.
      destruct (truthy _); [by intros [= <-]|].
      destruct (results region); [done|]. by intros [= <-].
Qed.

(** The store of the two regions "r1" and "r2". *)
Lemma needsUpdate_distinct_ids_witness :
  NoDup
    (_id <$>
     regions
       (self
          (needsUpdate
             (state_of (pdf true JUndefined) [alice_area; bob_area] None))))
  ∧ length
      (regions
         (self
            (needsUpdate
               (state_of (pdf true JUndefined) [alice_area; bob_area] None))))
    = 2%nat.
Proof.
  split; [|reflexivity].
  apply
    (needsUpdate_distinct_ids
       (state_of (pdf true JUndefined) [alice_area; bob_area] None)).
  simpl. apply NoDup_cons. split; [|apply NoDup_singleton].
  rewrite list_elem_of_singleton. discriminate.
Defined.

(** X4: When every region of the store has a text and a [labels] array, the
    rebuild writes nothing into the store, logs nothing, and the tag ends
    with one region for each region of the store. *)
Theorem needsUpdate_read_only (st : State) :
  Forall
    (λ region,
       truthy (of_maybeNull (text (props region))) = true
       ∧ is_Some (labels region))
    (regs (annotation st)) →
  annotation (needsUpdate st) = annotation st
  ∧ console (needsUpdate st) = console st
  ∧ length (regions (self (needsUpdate st)))
    = length (regs (annotation st)).
Proof.
  intros Hall. rewrite needsUpdate_spec.
  cbn [self annotation console regions set_regions].
  assert (Forall (λ region, deriveRegion (self st) region
                            = inr ({| _id := Some (id region);
                                      type := "pdfregion";
                                      object := name (self st);
                                      position := position (props region);
                                      text := None;
                                      label := head (default [] (labels region))
                                   |}, region))
            (regs (annotation st))) as Hderive.
  { eapply Forall_impl; [exact Hall|]. intros region [Ht [ls Hls]].
    unfold deriveRegion. by rewrite Hls, Ht. }
  clear Hall. destruct (annotation st) as [rs controls]. simpl in *.
  induction Hderive as [|region rest Hregion _ IH]; [by rewrite app_nil_r|].
  cbn [fmap list_fmap omap list_omap].
  unfold refreshed_of at 1, thrown_of at 1, derived_of at 1. rewrite Hregion.
  destruct IH as (IH1 & IH2 & IH3). split_and!.
  - injection IH1 as IH1. by rewrite IH1.
  - done.
  - simpl. by rewrite IH3.
Qed.

Lemma needsUpdate_read_only_witness :
  annotation (needsUpdate (state_of (pdf true JUndefined) [alice_area] None))
  = annotation (state_of (pdf true JUndefined) [alice_area] None).
Proof.
  apply
    (needsUpdate_read_only (state_of (pdf true JUndefined) [alice_area] None)).
  repeat constructor. by eexists.
Defined.

(** ** Objects under a spread *)

Lemma get_prop_None (k : string) (o : obj) :
  k ∉ keys o → get_prop k o = None.
Proof.
  unfold keys. induction o as [|[k' v] o IH]; [done|].
  rewrite fmap_cons, not_elem_of_cons. simpl. intros [Hne Hnotin].
  destruct (String.eqb_spec k' k); [done|]. by apply IH.
Qed.

(** A key of the spread object reads as the spread gave it, any other key as
    before. *)
Lemma get_prop_spread (k : string) (src o : obj) :
  NoDup (keys src) →
  get_prop k (spread src o)
  = match get_prop k src with
    | Some v => Some v
    | None => get_prop k o
    end.
Proof.
  unfold spread, keys. revert o.
  induction src as [|[k0 v0] src IH]; intros o; [done|].
  rewrite fmap_cons, NoDup_cons. intros [Hnotin Hnodup].
  cbn [foldl get_prop fst snd]. rewrite IH by done.
  destruct (String.eqb_spec k0 k) as [->|Hne].
  - rewrite (get_prop_None k src) by done. apply get_set_prop_eq.
  - by rewrite get_set_prop_ne.
Qed.

(** ** [addRegion] *)

Section AddRegionFurther.

Context `{Collaborators}.

(** X5: In the [areaValue] handed to [createResult] for a position that is
    an object, [text] and [classification] are the selection's text and
    false whatever the position holds; every other key reads as the
    position has it, and as [id], [object], [type], [origin] and [position]
    were set when the position has no property of that name. *)
Theorem areaValue_props (m : PDFModel) (i : string)
    (highlightData : HighlightData) (props : obj) :
  hd_position highlightData = JObj props →
  NoDup (keys props) →
  get_prop "text" (areaValue m i highlightData)
  = Some (of_maybe (content_text (content highlightData)))
  ∧ get_prop "classification" (areaValue m i highlightData)
    = Some (JBool false)
  ∧ ∀ k, k ≠ "text" → k ≠ "classification" →
      get_prop k (areaValue m i highlightData)
      = match get_prop k props with
        | Some v => Some v
        | None =>
            get_prop k
              [("id", JStr i); ("object", JStr (name m));
               ("type", JStr "pdfregion"); ("origin", JStr "manual");
               ("position", JObj props)]
        end.
Proof.
  intros Hobj Hnodup. unfold areaValue. rewrite Hobj. split_and!.
  - rewrite get_set_prop_ne by done. apply get_set_prop_eq.
  - apply get_set_prop_eq.
  - intros k Ht Hc. rewrite !get_set_prop_ne by done.
    by apply get_prop_spread.
Qed.

Lemma addRegion_console (highlightData : HighlightData) (st : State) :
  console (addRegion highlightData st).2 = console st.
Proof.
  unfold addRegion.
  destruct (getAvailableStates (self st) (annotation st))
    as [[|control rest] ann1]; [done|].
  by destruct (createResult _ _ _ _ _) as [[| |res] ann2].
Qed.

Lemma addRegion_self_frame (highlightData : HighlightData) (st : State) :
  set_regions (regions (self st)) (self (addRegion highlightData st).2)
  = self st.
Proof.
  unfold addRegion.
  destruct (getAvailableStates (self st) (annotation st))
    as [[|control rest] ann1]; simpl; [by destruct (self st)|].
  destruct (createResult _ _ _ _ _) as [[| |res] ann2]; simpl;
    by destruct (self st).
Qed.

(** X6: [addRegion] draws one id whenever a control is available, also when
    [createResult] then hands back no Result, and none otherwise; it writes
    nothing to the console, and of the tag it changes the region list
    only. *)
Theorem addRegion_draws_one_id (highlightData : HighlightData) (st : State) :
  guids (addRegion highlightData st).2
  = (guids st
     + match (getAvailableStates (self st) (annotation st)).1 with
       | [] => 0
       | _ :: _ => 1
       end)%nat
  ∧ console (addRegion highlightData st).2 = console st
  ∧ set_regions (regions (self st)) (self (addRegion highlightData st).2)
    = self st.
Proof.
  split_and!; [|apply addRegion_console|apply addRegion_self_frame].
  unfold addRegion.
  destruct (getAvailableStates (self st) (annotation st))
    as [[|control rest] ann1]; simpl; [lia|].
  destruct (createResult _ _ _ _ _) as [[| |res] ann2]; simpl; lia.
Qed.

(** A successful [addRegion] in terms of what it returns. *)
Lemma addRegion_success (highlightData : HighlightData) (st : State) :
  is_obj (addRegion highlightData st).1 = true →
  ∃ control,
    head (getAvailableStates (self st) (annotation st)).1 = Some control
    ∧ regions (self (addRegion highlightData st).2)
      = regions (self st)
        ++ [newRegion (self st) (guidGenerator (guids st)) highlightData
              (selectedValues control)]
    ∧ name (self (addRegion highlightData st).2) = name (self st)
    ∧ guids (addRegion highlightData st).2 = S (guids st).
Proof.
  unfold addRegion.
  destruct (getAvailableStates (self st) (annotation st))
    as [[|control rest] ann1]; [done|].
  destruct (createResult _ _ _ _ _) as [[| |res] ann2]; [done..|].
  intros _. by exists control.
Qed.

(** X7: Two selections accepted in a row: the tag ends with the regions it
    held, then the region of the first selection, then that of the second,
    under the next two ids of [guidGenerator]; when [guidGenerator] never
    repeats an id, the two regions differ in [_id]. *)
Theorem addRegion_twice (first second : HighlightData) (st : State) :
  is_obj (addRegion first st).1 = true →
  is_obj (addRegion second (addRegion first st).2).1 = true →
  ∃ r1 r2,
    regions (self (addRegion second (addRegion first st).2).2)
    = regions (self st) ++ [r1; r2]
    ∧ _id r1 = Some (guidGenerator (guids st))
    ∧ _id r2 = Some (guidGenerator (S (guids st)))
    ∧ position r1 = hd_position first
    ∧ position r2 = hd_position second
    ∧ text r1 = content_text (content first)
    ∧ text r2 = content_text (content second)
    ∧ ((∀ a b, guidGenerator a = guidGenerator b → a = b) →
       _id r1 ≠ _id r2).
Proof.
  intros (c1 & _ & Hr1 & Hn1 & Hg1)%addRegion_success
         (c2 & _ & Hr2 & _ & _)%addRegion_success.
  rewrite Hr2, Hr1, Hg1, <-app_assoc. eexists _, _.
  split_and!; [done..|].
  intros Hinj [= Heq]. apply Hinj in Heq. lia.
Qed.

(** X8: What [onSelectionFinished] leaves: the warning is logged exactly when
    the tag has no label control at all; the selection is cleared exactly
    when a region was pushed, and otherwise the tag is as it was. *)
Theorem onSelectionFinished_outcome (pos : jsval) (c : Content) (st : State) :
  console (onSelectionFinished pos c st).2
  = console st
    ++ (if hasStates st then [] else [ConsoleWarn "No labels selected"])
  ∧ (if (onSelectionFinished pos c st).1
     then ∃ r, regions (self (onSelectionFinished pos c st).2)
               = regions (self st) ++ [r]
               ∧ position r = pos ∧ text r = content_text c
     else self (onSelectionFinished pos c st).2 = self st).
Proof.
  unfold onSelectionFinished. destruct (hasStates st); simpl; [|done].
  pose proof (addRegion_console {| hd_position := pos; content := c |} st)
    as Hconsole.
  pose proof (addRegion_success {| hd_position := pos; content := c |} st)
    as Hok.
  pose proof (addRegion_self_frame {| hd_position := pos; content := c |} st)
    as Hself.
  pose proof
    (addRegion_appends_iff_result {| hd_position := pos; content := c |} st)
    as Hregions.
  destruct (addRegion _ st) as [result st']. simpl in *.
  split; [by rewrite Hconsole, app_nil_r|].
  destruct result as [| |res]; simpl in *.
  - rewrite app_nil_r in Hregions. rewrite <-Hself, <-Hregions.
    by destruct (self st').
  - rewrite app_nil_r in Hregions. rewrite <-Hself, <-Hregions.
    by destruct (self st').
  - destruct (Hok eq_refl) as (control & _ & Hr & _). eexists. by rewrite Hr.
Qed.

End AddRegionFurther.

Lemma areaValue_props_witness :
  get_prop "text" (areaValue (pdf true JUndefined) "region-0" alice_selection)
  = Some (JStr "Alice")
  ∧ get_prop "pageNumber"
      (areaValue (pdf true JUndefined) "region-0" alice_selection)
    = Some (JNum 1).
Proof.
  destruct
    (areaValue_props (pdf true JUndefined) "region-0" alice_selection
       _ eq_refl)
    as (Htext & _ & Hother).
  { simpl. repeat constructor; rewrite ?elem_of_cons, ?elem_of_nil;
      intuition discriminate. }
  split; [exact Htext|]. by rewrite Hother.
Defined.

Lemma addRegion_twice_witness :
  ∃ r1 r2,
    regions
      (self
         (@addRegion (store true) alice_selection
            (@addRegion (store true) alice_selection
               (state_of (pdf true JUndefined) []
                  (Some [labels_control true]))).2).2)
    = [r1; r2]
    ∧ _id r1 = Some "region-0" ∧ _id r2 = Some "region-1".
Proof.
  destruct
    (@addRegion_twice (store true) alice_selection alice_selection
       (state_of (pdf true JUndefined) [] (Some [labels_control true]))
       eq_refl eq_refl)
    as (r1 & r2 & Hr & H1 & H2 & _).
  exists r1, r2. split_and!; [exact Hr|exact H1|exact H2].
Defined.

(** ** Deleting *)

Lemma filter_derived (m : PDFModel) (i : string) (rs : list PDFRegionModel) :
  filter (λ r, negb (strict_eq (_id r) (JStr i))) (omap (derived_of m) rs)
  = omap (derived_of m) (filter (λ x, id x ≠ i) rs).
Proof.
  induction rs as [|region rest IH]; [done|].
  rewrite (filter_cons (λ x, id x ≠ i)). cbn [omap list_omap].
  destruct (derived_of m region) as [r|] eqn:E.
  - pose proof (derived_of_text _ _ _ E) as (_ & Hid & _).
    rewrite filter_cons, Hid. simpl.
    destruct (decide (id region ≠ i)) as [Hne|Heq].
    + destruct (String.eqb_spec (id region) i); [done|].
      cbn [omap list_omap]. rewrite E. simpl. by rewrite IH.
    + apply dec_stable in Heq. rewrite Heq, String.eqb_refl. simpl. apply IH.
  - destruct (decide (id region ≠ i)); [|apply IH].
    cbn [omap list_omap]. rewrite E. apply IH.
Qed.

(** X9: The teardown of a region of the store, run on a tag that was just
    rebuilt, leaves the region list a rebuild would give from the store
    without the regions of that id: the incremental delete and the full
    resync agree. *)
Theorem teardown_matches_rebuild (st : State) (region : PDFRegionModel) :
  regions <$> region_beforeDestroy region (Some (self (needsUpdate st)))
  = Some
      (regions
         (self
            (needsUpdate
               {| self := self st;
                  annotation :=
                    {| regs :=
                         filter (λ x, id x ≠ id region) (regs (annotation st));
                       toNames := toNames (annotation st) |};
                  console := console st; guids := guids st |}))).
Proof.
  unfold region_beforeDestroy, deleteRegion. rewrite !needsUpdate_spec.
  cbn [fmap option_fmap option_map self annotation regs regions set_regions].
  f_equal. apply filter_derived.
Qed.

Lemma set_regions_set_regions (rs rs' : list PDFRegion) (m : PDFModel) :
  set_regions rs (set_regions rs' m) = set_regions rs m.
Proof. reflexivity. Qed.

(** X10: [deleteRegion] composes as a set difference does: a second delete of
    the same id changes nothing, deletes of two ids commute, and an id that
    is neither a string nor null (undefined, a number, ...) deletes
    nothing. *)
Theorem deleteRegion_compose (i j : jsval) (m : PDFModel) :
  deleteRegion i (deleteRegion i m) = deleteRegion i m
  ∧ deleteRegion i (deleteRegion j m) = deleteRegion j (deleteRegion i m)
  ∧ match i with
    | JNull | JStr _ => True
    | _ => deleteRegion i m = m
    end.
Proof.
  unfold deleteRegion. rewrite !set_regions_set_regions.
  change (regions (set_regions ?rs _)) with rs. split_and!.
  - f_equal. rewrite list_filter_filter. apply list_filter_iff. tauto.
  - f_equal. rewrite !list_filter_filter. apply list_filter_iff. tauto.
  - assert (∀ rs : list PDFRegion, (∀ a, strict_eq a i = false) →
              filter (λ r : PDFRegion, negb (strict_eq (_id r) i)) rs = rs)
      as Hkeep.
    { intros rs Hi. apply filter_none_matching, Forall_forall. auto. }
    destruct i; try done; rewrite Hkeep; try (by destruct m);
      by intros [?|].
Qed.

(** ** Highlight colouring, further *)

Lemma querySelector_update_other (i j : string)
    (f : HighlightElement → HighlightElement) (page : Page) :
  (∀ el, data_highlight_id (f el) = data_highlight_id el) →
  j ≠ i →
  querySelector j (set_elements (update_selected i f (elements page)) page)
  = querySelector j page.
Proof.
  intros Hf Hne. unfold querySelector. cbn [elements set_elements].
  f_equal. induction (elements page) as [|el els IH]; [done|].
  cbn [update_selected]. destruct (decide (data_highlight_id el = i)) as [E|E].
  - rewrite !filter_cons, Hf. by rewrite !decide_False by congruence.
  - rewrite !filter_cons, IH. done.
Qed.

Lemma update_selected_absent (i : string)
    (f : HighlightElement → HighlightElement) (page : Page) :
  querySelector i page = None →
  set_elements (update_selected i f (elements page)) page = page.
Proof.
  unfold querySelector. intros Hnone.
  assert (update_selected i f (elements page) = elements page) as ->;
    [|by destruct page].
  induction (elements page) as [|el els IH]; [done|].
  rewrite filter_cons in Hnone. cbn [update_selected].
  destruct (decide (data_highlight_id el = i)); [done|]. by rewrite IH.
Qed.

Lemma update_selected_ids (i : string)
    (f : HighlightElement → HighlightElement) (els : list HighlightElement) :
  (∀ el, data_highlight_id (f el) = data_highlight_id el) →
  data_highlight_id <$> update_selected i f els = data_highlight_id <$> els.
Proof.
  intros Hf. induction els as [|el els IH]; [done|].
  cbn [update_selected]. destruct (decide (data_highlight_id el = i)).
  - by rewrite !fmap_cons, Hf.
  - by rewrite !fmap_cons, IH.
Qed.

Lemma update_selected_split (i : string)
    (f : HighlightElement → HighlightElement)
    (before after : list HighlightElement) (el : HighlightElement) :
  Forall (λ e, data_highlight_id e ≠ i) before →
  data_highlight_id el = i →
  update_selected i f (before ++ el :: after) = before ++ f el :: after.
Proof.
  intros Hbefore Hel. induction Hbefore as [|e before He _ IH]; simpl.
  - by rewrite decide_True.
  - by rewrite decide_False, IH.
Qed.

Lemma update_selected_none (i : string)
    (f : HighlightElement → HighlightElement) (els : list HighlightElement) :
  Forall (λ e, data_highlight_id e ≠ i) els → update_selected i f els = els.
Proof.
  induction 1 as [|e els He _ IH]; simpl; [done|].
  by rewrite decide_False, IH.
Qed.

(** X11: [changeHighlightColor] of a region whose id is [selector_safe]
    touches the first element carrying the id and nothing else.  When no
    element carries it the page is as it was.  Otherwise the elements
    before and after that one, and the viewport, stay as they are; the
    element keeps its id, rectangle and scroll count; each of its parts
    that is an HTML element gets the colour and the display "none" or
    "unset" by [hidden], and every other part stays as it was. *)
Theorem changeHighlightColor_frame (color : string) (region : PDFRegionModel)
    (page : Page) :
  selector_safe (id region) = true →
  (Forall (λ e, data_highlight_id e ≠ id region) (elements page) →
   changeHighlightColor color region page = page)
  ∧ (∀ before el after,
       elements page = before ++ el :: after →
       Forall (λ e, data_highlight_id e ≠ id region) before →
       data_highlight_id el = id region →
       ∃ el',
         elements (changeHighlightColor color region page)
         = before ++ el' :: after
         ∧ data_highlight_id el' = id region
         ∧ rect el' = rect el
         ∧ scrollIntoViewCalls el' = scrollIntoViewCalls el
         ∧ Forall2
             (λ p p',
                if isHTMLElement p
                then p' = {| isHTMLElement := true;
                             style_background := color;
                             style_display :=
                               if hidden region then "none" else "unset" |}
                else p' = p)
             (parts el) (parts el')
         ∧ innerHeight (changeHighlightColor color region page)
           = innerHeight page
         ∧ innerWidth (changeHighlightColor color region page)
           = innerWidth page
         ∧ clientHeight (changeHighlightColor color region page)
           = clientHeight page
         ∧ clientWidth (changeHighlightColor color region page)
           = clientWidth page).
Proof.
  intros _. unfold changeHighlightColor. split.
  - intros Hnone. rewrite update_selected_none by done. by destruct page.
  - intros before el after Hels Hbefore Hel.
    cbn [elements set_elements innerHeight innerWidth clientHeight
      clientWidth].
    rewrite Hels, update_selected_split by done.
    eexists. split_and!; [reflexivity|done|reflexivity..| | | | |];
      [|reflexivity..].
    cbn [parts set_parts].
    apply Forall2_fmap_r, Forall_Forall2_diag, Forall_forall.
    intros p _. unfold paint, compose. by destruct (isHTMLElement p).
Qed.

(** The "Person" highlight, second on [two_part_page]. *)
Lemma changeHighlightColor_frame_witness :
  ∃ el',
    elements (changeHighlightColor "#FF0000" alice_area two_part_page)
    = take 1 (elements two_part_page) ++ [el']
    ∧ style_background <$> parts el' = ["#FF0000"; "#FF0000"].
Proof.
  destruct
    (changeHighlightColor_frame "#FF0000" alice_area two_part_page eq_refl)
    as [_ Hfound].
  destruct
    (Hfound (take 1 (elements two_part_page))
       {| data_highlight_id := "r1";
          parts :=
            [{| isHTMLElement := true; style_background := "";
                style_display := "" |};
             {| isHTMLElement := true; style_background := "";
                style_display := "" |}];
          rect := {| top := 700; left := 10; bottom := 900; right := 110 |};
          scrollIntoViewCalls := 0 |}
       [] eq_refl)
    as (el' & Hels & _ & _ & _ & Hparts & _).
  { repeat constructor. discriminate. }
  { reflexivity. }
  exists el'. split; [exact Hels|].
  destruct el' as [i ps r n]. simpl in *.
  inversion Hparts as [|p1 p1' l1 l1' H1 Hrest]; subst.
  inversion Hrest as [|p2 p2' l2 l2' H2 Hnil]; subst.
  inversion Hnil; subst. simpl in *. by subst.
Defined.

Lemma isInViewport_set_elements (r : Rect) (els : list HighlightElement)
    (page : Page) :
  isInViewport r (set_elements els page) = isInViewport r page.
Proof. reflexivity. Qed.

(** X12: [selectRegion] scrolls the region's highlight into view once when its
    rectangle is not wholly inside the viewport and not at all when it is;
    the rectangle is inside when its top and left are not negative and its
    bottom and right do not pass the window's inner height and width, the
    document element's client size standing in for an inner size of 0.
    With no highlight for the region the page is as it was, and no other
    highlight is touched. *)
Theorem selectRegion_scrolls_when_outside (region : PDFRegionModel)
    (page : Page) (B : string) :
  first_background region = inr B →
  (querySelector (id region) page = None → selectRegion region page = inr page)
  ∧ (∀ el, querySelector (id region) page = Some el →
       ∃ page' el',
         selectRegion region page = inr page'
         ∧ querySelector (id region) page' = Some el'
         ∧ rect el' = rect el
         ∧ scrollIntoViewCalls el'
           = (scrollIntoViewCalls el
              + if isInViewport (rect el) page then 0 else 1)%nat
         ∧ ∀ j, j ≠ id region → querySelector j page' = querySelector j page)
  ∧ ∀ r, isInViewport r page = true
         ↔ (0 ≤ top r ∧ 0 ≤ left r
            ∧ bottom r
              ≤ (if decide (innerHeight page = 0) then clientHeight page
                 else innerHeight page)
            ∧ right r
              ≤ (if decide (innerWidth page = 0) then clientWidth page
                 else innerWidth page))%Z.
Proof.
  intros HB. unfold selectRegion. rewrite HB. split_and!.
  - intros Hnone. unfold changeHighlightColor.
    rewrite update_selected_absent by done.
    unfold scrollIfHidden. by rewrite Hnone.
  - intros el Hel.
    exists (scrollIfHidden region (changeHighlightColor B region page)).
    unfold scrollIfHidden, changeHighlightColor.
    rewrite querySelector_update_selected, Hel by done. cbn [fmap option_fmap
      option_map rect set_parts]. rewrite isInViewport_set_elements.
    destruct (isInViewport (rect el) page).
    + rewrite querySelector_update_selected, Hel by done.
      eexists. split_and!; [reflexivity|reflexivity|reflexivity|simpl; lia|].
      intros j Hj. by apply querySelector_update_other.
    + rewrite querySelector_update_selected by done.
      rewrite querySelector_update_selected, Hel by done.
      eexists. split_and!; [reflexivity|reflexivity|reflexivity|simpl; lia|].
      intros j Hj. rewrite querySelector_update_other by done.
      by apply querySelector_update_other.
  - intros r. unfold isInViewport, or_else.
    rewrite !andb_true_iff, !Z.leb_le.
    destruct (Z.eqb_spec (innerHeight page) 0), (Z.eqb_spec (innerWidth page) 0);
      repeat case_decide; try done; tauto.
Qed.

(** The "Person" highlight, below the fold of [two_part_page]. *)
Lemma selectRegion_scrolls_when_outside_witness :
  ∃ page' el',
    selectRegion alice_area two_part_page = inr page'
    ∧ querySelector "r1" page' = Some el'
    ∧ scrollIntoViewCalls el' = 1%nat.
Proof.
  destruct
    (selectRegion_scrolls_when_outside alice_area two_part_page "#FF0000"
       eq_refl) as (_ & Hfound & _).
  destruct (Hfound _ eq_refl) as (page' & el' & Hsel & Hq & _ & Hcalls & _).
  exists page', el'. split_and!; [exact Hsel|exact Hq|exact Hcalls].
Defined.





(** ** [HighlightComponent] *)



Lemma find_region_Some (st : State) (highlight : PDFRegion)
    (r : PDFRegionModel) :
  find_region st highlight = Some r →
  r ∈ regs (annotation st) ∧ _id highlight = Some (id r).
Proof.
  unfold find_region. intros Hhead.
  apply head_Some_elem_of, list_elem_of_filter in Hhead as [Hmatch Hin].
  split; [done|]. destruct (_id highlight) as [s|]; [|done].
  simpl in Hmatch. apply Is_true_true, String.eqb_eq in Hmatch. by subst.
Qed.

Lemma update_selected_same (i : string)
    (f : HighlightElement → HighlightElement) (els : list HighlightElement) :
  (∀ el, f el = el) → update_selected i f els = els.
Proof.
  intros Hf. induction els as [|el els IH]; [done|].
  cbn [update_selected]. destruct (decide _); by rewrite ?Hf, ?IH.
Qed.

(** X16: The layout effect on a page that shows the highlight.  For a highlight
    whose id no region of the store carries, the effect throws as soon as
    the highlight has an HTML part.  For one whose region is found, the
    HTML parts get the computed colour as background and keep their
    display when the region is not hidden, and the page is left as it was
    when the region is hidden. *)
Theorem layoutEffect_cases (st : State) (highlight : PDFRegion) (page : Page)
    (el : HighlightElement) :
  querySelector (id_text (_id highlight)) page = Some el →
  (find_region st highlight = None →
   existsb isHTMLElement (parts el) = true →
   layoutEffect st highlight page = inl (TypeError "hidden"))
  ∧ (∀ r, find_region st highlight = Some r →
       _id highlight = Some (id r)
       ∧ (hidden r = true → layoutEffect st highlight page = inr page)
       ∧ ∃ page' el',
           layoutEffect st highlight page = inr page'
           ∧ querySelector (id r) page' = Some el'
           ∧ Forall2
               (λ p p',
                  if isHTMLElement p && negb (hidden r)
                  then style_background p' = highlight_color st highlight
                       ∧ style_display p' = style_display p
                       ∧ isHTMLElement p' = true
                  else p' = p)
               (parts el) (parts el')).
Proof.
  intros Hel. unfold layoutEffect. rewrite Hel. split.
  - by intros -> ->.
  - intros r Hr. pose proof (find_region_Some _ _ _ Hr) as [_ Hid].
    rewrite Hr. split_and!; [done| |].
    + intros Hhidden. f_equal.
      rewrite update_selected_same; [by destruct page|].
      intros el0. destruct el0 as [i ps rc n]. unfold set_parts. simpl.
      f_equal. rewrite <-(list_fmap_id ps) at 2. apply list_fmap_ext.
      intros k p _. unfold tint. by rewrite Hhidden, andb_false_r.
    + eexists _, _. split; [done|].
      rewrite Hid in *. cbn [id_text] in *.
      rewrite querySelector_update_selected, Hel by done.
      split; [reflexivity|]. cbn [parts set_parts].
      apply Forall2_fmap_r, Forall_Forall2_diag, Forall_forall.
      intros p _. unfold tint, compose.
      by destruct (isHTMLElement p && negb (hidden r)).
Qed.

(** The highlight of the region "r1" on [two_part_page], for a store that
    holds no region: the effect throws. *)
Lemma layoutEffect_cases_witness :
  layoutEffect (state_of (pdf true JUndefined) [] None) alice two_part_page
  = inl (TypeError "hidden").
Proof.
  destruct
    (layoutEffect_cases (state_of (pdf true JUndefined) [] None) alice
       two_part_page _ eq_refl) as [Horphan _].
  exact (Horphan eq_refl eq_refl).
Defined.
